(** * Task manager: the task store, its queries and its persistence

    A shallow embedding of [backend/Task.js], [backend/TaskRepository.js],
    [backend/TaskController.js] and the routes of [backend/server.js], and
    the properties of the task store that follow from them.

    Conventions of the embedding.
    - A JavaScript value that a JSON request body or [tasks.json] can put in
      a task field is a [value]: [null], a boolean, a number or a string.
      Number values are the integers, the two infinities and [NaN];
      fractions are not modelled, the two zeros are one number, and arrays
      and objects nested inside a field are not modelled either. Arithmetic
      on integers is exact, as it is for a double up to 2^53.
    - [undefined] is the absence of a value: a possibly undefined expression
      has type [option value], and an object is a finite map that holds the
      properties whose value is not [undefined].
    - Built-in functions whose result depends on the engine
      ([StringToNumber], [Date.parse]) are the operations of the class
      [Engine]; every result below holds for every engine. *)

From Stdlib Require Import ZArith Lia Ascii String.
From stdpp Require Import base option list sorting strings gmap fin_maps pretty.

Open Scope Z_scope.

(** ** JavaScript values *)

Inductive number :=
  | NaN
  | Int (z : Z)
  | Infinity (negative : bool).

Inductive value :=
  | Null
  | Bool (b : bool)
  | Num (n : number)
  | Str (s : string).

#[global] Instance number_eq_dec : EqDecision number.
Proof. solve_decision. Defined.

#[global] Instance value_eq_dec : EqDecision value.
Proof. solve_decision. Defined.

(** A plain object: the properties that are not [undefined]. *)
Abbreviation obj := (gmap string value).

(** [ToBoolean]: [undefined], [null], [false], [0], [NaN] and [''] are falsy. *)
Definition truthy (v : option value) : bool :=
  match v with
  | None => false
  | Some Null => false
  | Some (Bool b) => b
  | Some (Num NaN) => false
  | Some (Num (Int z)) => negb (z =? 0)
  | Some (Num (Infinity _)) => true
  | Some (Str s) => negb (String.eqb s "")
  end.

(** [a === b]: equal types and equal values, and [NaN] differs from itself. *)
Definition strict_eq (a b : option value) : bool :=
  match a, b with
  | Some (Num NaN), _ | _, Some (Num NaN) => false
  | _, _ => bool_decide (a = b)
  end.

(** [a || b] *)
Definition or_else (a : option value) (b : value) : value :=
  if truthy a then default b a else b.

(** [ToString], as a template literal applies it. *)
Definition ToString (v : option value) : string :=
  match v with
  | None => "undefined"
  | Some Null => "null"
  | Some (Bool true) => "true"
  | Some (Bool false) => "false"
  | Some (Num NaN) => "NaN"
  | Some (Num (Int z)) => pretty z
  | Some (Num (Infinity false)) => "Infinity"
  | Some (Num (Infinity true)) => "-Infinity"
  | Some (Str s) => s
  end.

(** Arithmetic on numbers: [NaN] is absorbing, an infinity absorbs every
    integer, and two infinities that pull apart give [NaN]. The sum and the
    difference of two integers are exact; a double rounds them from 2^53
    on. *)
Definition num_add (a b : number) : number :=
  match a, b with
  | Int x, Int y => Int (x + y)
  | Int _, Infinity s | Infinity s, Int _ => Infinity s
  | Infinity s, Infinity t => if Bool.eqb s t then Infinity s else NaN
  | NaN, _ | _, NaN => NaN
  end.

Definition num_sub (a b : number) : number :=
  match a, b with
  | Int x, Int y => Int (x - y)
  | Int _, Infinity t => Infinity (negb t)
  | Infinity s, Int _ => Infinity s
  | Infinity s, Infinity t => if Bool.eqb s t then NaN else Infinity s
  | NaN, _ | _, NaN => NaN
  end.

Definition Math_max (a b : number) : number :=
  match a, b with
  | NaN, _ | _, NaN => NaN
  | Int x, Int y => Int (Z.max x y)
  | Infinity false, _ | _, Infinity false => Infinity false
  | Infinity true, c | c, Infinity true => c
  end.

(** [TimeClip]: a time value is at most 8.64e15 ms away from the epoch. *)
Definition TimeClip (n : number) : number :=
  match n with
  | Int t => if Z.abs t <=? 8640000000000000 then Int t else NaN
  | Infinity _ => NaN
  | NaN => NaN
  end.

(** The part of the built-ins that is engine specific: the number a string
    denotes ([StringToNumber]) and the time value of a date string
    ([Date.parse], [NaN] for an invalid date). *)
Class Engine := {
  StringToNumber : string → number;
  Date_parse : string → number
}.

(** ** Arrays *)

(** [Array.prototype.findIndex]; [None] stands for the result [-1]. *)
Fixpoint findIndex {A} (p : A → bool) (l : list A) : option nat :=
  match l with
  | [] => None
  | x :: l' => if p x then Some 0%nat else S <$> findIndex p l'
  end.

(** [Array.prototype.sort] with a comparator, as Node's engine runs it on
    an array of fewer than 64 elements (V8, [array-sort.tq]): the run the
    array starts with is taken as it is, reversed if it descends, and each
    further element is inserted into it at the place a binary search
    finds. The comparator's result goes through [ToNumber], and [NaN]
    counts as [+0]. For a consistent comparator ECMAScript fixes the result,
    the stable ordering, and this is it; for an inconsistent one the
    standard leaves the order to the engine. V8 sorts a longer array in
    several runs that it merges; the model sorts it like a short one.
    The sort looks at the sign of the number only, so an infinity counts
    as [1] or [-1]. *)
Definition comparator_sign (n : number) : Z :=
  match n with
  | NaN => 0
  | Int v => v
  | Infinity false => 1
  | Infinity true => -1
  end.

(** [order < 0] for [order = sortState.Compare(x, y)]. *)
Definition order_lt {A} (cmp : A → A → number) (x y : A) : bool :=
  comparator_sign (cmp x y) <? 0.

(** The loop of [BinaryInsertionSort] that finds the place of [pivot] in
    [a] between [left] and [right]; [fuel] bounds its iterations. *)
Fixpoint binary_search {A} (fuel : nat) (cmp : A → A → number) (pivot : A)
    (a : list A) (left right : nat) : nat :=
  match fuel with
  | O => left
  | S fuel' =>
      if (left <? right)%nat then
        let mid := (left + (right - left) / 2)%nat in
        match a !! mid with
        | Some x =>
            if order_lt cmp pivot x
            then binary_search fuel' cmp pivot a left mid
            else binary_search fuel' cmp pivot a (mid + 1) right
        | None => left
        end
      else left
  end.

Definition binary_insert {A} (cmp : A → A → number) (pivot : A) (a : list A)
    : list A :=
  let left := binary_search (length a) cmp pivot a 0 (length a) in
  take left a ++ pivot :: drop left a.

(** The loop of [CountAndMakeRun]: the rest of the run after
    [previousElement], and the elements after the run. *)
Fixpoint run_rest {A} (cmp : A → A → number) (isDescending : bool)
    (previousElement : A) (l : list A) : list A * list A :=
  match l with
  | [] => ([], [])
  | currentElement :: l' =>
      let lt := order_lt cmp currentElement previousElement in
      if (if isDescending then negb lt else lt) then ([], l)
      else
        let '(run, rest) := run_rest cmp isDescending currentElement l' in
        (currentElement :: run, rest)
  end.

(** The run the array starts with, in ascending order, and the elements
    after it. *)
Definition CountAndMakeRun {A} (cmp : A → A → number) (l : list A)
    : list A * list A :=
  match l with
  | elementHigh :: elementLow :: l' =>
      let isDescending := order_lt cmp elementLow elementHigh in
      let '(run, rest) := run_rest cmp isDescending elementLow l' in
      (if isDescending then reverse (elementHigh :: elementLow :: run)
       else elementHigh :: elementLow :: run,
       rest)
  | _ => (l, [])
  end.

Definition Array_sort {A} (cmp : A → A → number) (l : list A) : list A :=
  let '(run, rest) := CountAndMakeRun cmp l in
  foldl (λ a pivot, binary_insert cmp pivot a) run rest.

(** ** A reference engine

    The ECMAScript date-only form [YYYY-MM-DD] (read as UTC) and decimal
    integer literals; every other string is an invalid date, respectively
    [NaN]. It serves to run the model on concrete inputs. *)

Definition digit_of (c : ascii) : option Z :=
  let n := Z.of_N (N_of_ascii c) in
  if (48 <=? n) && (n <=? 57) then Some (n - 48) else None.

Fixpoint digits_go (acc : Z) (s : string) : option Z :=
  match s with
  | EmptyString => Some acc
  | String c s' =>
      match digit_of c with
      | Some d => digits_go (10 * acc + d) s'
      | None => None
      end
  end.

Definition decimal (s : string) : option Z :=
  match s with
  | EmptyString => None
  | _ => digits_go 0 s
  end.

Definition decimal_literal (s : string) : number :=
  match s with
  | EmptyString => Int 0
  | String "-" s' => from_option (λ n, Int (- n)) NaN (decimal s')
  | String "+" s' => from_option Int NaN (decimal s')
  | _ => from_option Int NaN (decimal s)
  end.

Definition is_leap (y : Z) : bool :=
  ((y mod 4 =? 0) && negb (y mod 100 =? 0)) || (y mod 400 =? 0).

Definition days_in_month (y m : Z) : Z :=
  if m =? 2 then (if is_leap y then 29 else 28)
  else if (m =? 4) || (m =? 6) || (m =? 9) || (m =? 11) then 30
  else 31.

(** Days from 1970-01-01 to the civil date [y-m-d]. *)
Definition days_from_civil (y m d : Z) : Z :=
  let y' := if m <=? 2 then y - 1 else y in
  let era := y' / 400 in
  let yoe := y' - era * 400 in
  let mp := if m <=? 2 then m + 9 else m - 3 in
  let doy := (153 * mp + 2) / 5 + d - 1 in
  let doe := yoe * 365 + yoe / 4 - yoe / 100 + doy in
  era * 146097 + doe - 719468.

Definition iso_date (s : string) : number :=
  if bool_decide (String.length s = 10%nat) &&
     bool_decide (String.get 4 s = Some "-"%char) &&
     bool_decide (String.get 7 s = Some "-"%char)
  then
    match decimal (substring 0 4 s), decimal (substring 5 2 s),
          decimal (substring 8 2 s) with
    | Some y, Some m, Some d =>
        if (1 <=? m) && (m <=? 12) && (1 <=? d) && (d <=? days_in_month y m)
        then Int (days_from_civil y m d * 86400000)
        else NaN
    | _, _, _ => NaN
    end
  else NaN.

Definition reference_engine : Engine :=
  {| StringToNumber := decimal_literal; Date_parse := iso_date |}.

Section builtins.
Context `{!Engine}.

(** [ToNumber] *)
Definition ToNumber (v : option value) : number :=
  match v with
  | None => NaN
  | Some Null => Int 0
  | Some (Bool b) => Int (if b then 1 else 0)
  | Some (Num n) => n
  | Some (Str s) => StringToNumber s
  end.

(** The time value of [new Date(v)] for a single argument [v]: a string is
    parsed, any other value is converted to a number and clipped. *)
Definition Date_new (v : option value) : number :=
  match v with
  | Some (Str s) => Date_parse s
  | _ => TimeClip (ToNumber v)
  end.

End builtins.

(** ** Task.js *)

(** [{ ...o, k: v }] for a possibly undefined [v]. *)
Definition set_prop (k : string) (v : option value) (o : obj) : obj :=
  partial_alter (λ _, v) k o.

Module Task.

(** An instance. The constructor's defaults leave only [id] and [title]
    possibly undefined. *)
Record t := make {
  id : option value;
  title : option value;
  description : value;
  deadline : value;
  priority : value;
  status : value
}.

(** [constructor({ id, title, description = '', deadline = null,
                  priority = 'Low', status = 'ToDo' })] *)
Definition new (o : obj) : t :=
  {| id := o !! "id";
     title := o !! "title";
     description := default (Str "") (o !! "description");
     deadline := default Null (o !! "deadline");
     priority := default (Str "Low") (o !! "priority");
     status := default (Str "ToDo") (o !! "status") |}.

(** The own properties of an instance, as [{ ...task }] copies them. *)
Definition props (k : t) : obj :=
  set_prop "id" (id k)
    (set_prop "title" (title k)
      (<["description" := description k]>
        (<["deadline" := deadline k]>
          (<["priority" := priority k]>
            (<["status" := status k]> ∅))))).

(** [toJSON()] returns a plain object with the same six properties. *)
Definition toJSON (k : t) : obj := props k.

End Task.

(** ** The files of the data directory *)

(** [tasks.json], seen through [JSON.parse]: no file; a text on which
    [load] throws (not JSON, JSON that is not an array, an array that
    holds [null]); or an array of objects. An element that is a number, a
    string or a boolean has no property, like [{}]. *)
Inductive file :=
  | NoFile
  | Broken
  | Json (data : list obj).

(** What [JSON.stringify] makes of a value: [NaN] and the infinities are
    written as [null]. *)
Definition JSON_value (v : value) : value :=
  match v with
  | Num NaN => Null
  | Num (Infinity _) => Null
  | _ => v
  end.

(** [JSON.parse(JSON.stringify(o))] for a plain object. *)
Definition JSON_object (o : obj) : obj := JSON_value <$> o.

(** ** TaskRepository.js *)

Module TaskRepository.

Record t := make {
  tasks : list Task.t;
  nextId : number
}.

Section repository.
Context `{!Engine}.

(** [load()], on a repository [r] and the content [f] of [tasks.json]. *)
Definition load (f : file) (r : t) : t :=
  match f with
  | NoFile => r
  | Broken => {| tasks := []; nextId := Int 1 |}
  | Json data =>
      let tasks := Task.new <$> data in
      let maxId :=
        foldl (λ acc k, Math_max acc (ToNumber (Task.id k))) (Int 0) tasks in
      {| tasks := tasks; nextId := num_add maxId (Int 1) |}
  end.

(** [constructor(dataDir)]: an empty repository, then [load()]. *)
Definition new (f : file) : t :=
  load f {| tasks := []; nextId := Int 1 |}.

(** [save()]: the content of [tasks.json] after a write that succeeds (a
    write that fails is logged and changes nothing). *)
Definition save (r : t) : file :=
  Json ((λ k, JSON_object (Task.toJSON k)) <$> tasks r).

(** The comparators of [getTasks]. *)
Definition by_deadline (a b : Task.t) : number :=
  if negb (truthy (Some (Task.deadline a))) then Int 1
  else if negb (truthy (Some (Task.deadline b))) then Int (-1)
  else num_sub (Date_new (Some (Task.deadline a)))
               (Date_new (Some (Task.deadline b))).

(** [order[p]] for [order = { High: 0, Medium: 1, Low: 2 }], as a number. *)
Definition order (p : value) : number :=
  if bool_decide (p = Str "High") then Int 0
  else if bool_decide (p = Str "Medium") then Int 1
  else if bool_decide (p = Str "Low") then Int 2
  else NaN.

Definition by_priority (a b : Task.t) : number :=
  num_sub (order (Task.priority a)) (order (Task.priority b)).

(** [getTasks({ sortBy, filter } = {})] *)
Definition getTasks (sortBy filter : option value) (r : t) : list Task.t :=
  let result := tasks r in
  let result :=
    if truthy filter then
      if strict_eq filter (Some (Str "completed")) then
        List.filter (λ k, strict_eq (Some (Task.status k)) (Some (Str "Completed"))) result
      else if strict_eq filter (Some (Str "not-completed")) then
        List.filter (λ k, negb (strict_eq (Some (Task.status k)) (Some (Str "Completed")))) result
      else if strict_eq filter (Some (Str "high-priority")) then
        List.filter (λ k, strict_eq (Some (Task.priority k)) (Some (Str "High"))) result
      else result
    else result in
  if truthy sortBy then
    if strict_eq sortBy (Some (Str "deadline")) then Array_sort by_deadline result
    else if strict_eq sortBy (Some (Str "priority")) then Array_sort by_priority result
    else result
  else result.

End repository.

(** [addTask(data)] *)
Definition addTask (data : obj) (r : t) : Task.t * t :=
  let task :=
    Task.new (<["status" := Str "ToDo"]> (data ∪ {["id" := Num (nextId r)]})) in
  (task, {| tasks := tasks r ++ [task]; nextId := num_add (nextId r) (Int 1) |}).

(** [updateTask(id, updates)]; [None] is the result [null]. The index that
    [findIndex] returns is an index of the array, so [existing] is there. *)
Definition updateTask (id : option value) (updates : obj) (r : t)
    : option Task.t * t :=
  match findIndex (λ k, strict_eq (Task.id k) id) (tasks r) with
  | None => (None, r)
  | Some index =>
      match tasks r !! index with
      | None => (None, r)
      | Some existing =>
          let updated :=
            Task.new (set_prop "id" (Task.id existing)
                        (updates ∪ Task.props existing)) in
          (Some updated,
           {| tasks := <[index := updated]> (tasks r); nextId := nextId r |})
      end
  end.

(** [deleteTask(id)] *)
Definition deleteTask (id : option value) (r : t) : bool * t :=
  match findIndex (λ k, strict_eq (Task.id k) id) (tasks r) with
  | None => (false, r)
  | Some index => (true, {| tasks := delete index (tasks r); nextId := nextId r |})
  end.

(** [markCompleted(id)] *)
Definition markCompleted (id : option value) (r : t) : option Task.t * t :=
  updateTask id {["status" := Str "Completed"]} r.

End TaskRepository.

(** ** TaskController.js *)

(** What a handler sends: the argument of [res.json], the text of
    [res.send], or nothing. *)
Inductive payload :=
  | Message (m : string)
  | Object (o : obj)
  | Objects (l : list obj)
  | Text (s : string)
  | NoContent.

Record response := respond {
  code : Z;
  sent : payload
}.

(** The data directory: [tasks.json] and [tasks_export.txt]. *)
Record disk := {
  tasks_json : file;
  tasks_export : option string
}.

Definition LF : string := String (ascii_of_nat 10) EmptyString.

(** [l.includes(v)] *)
Definition includes (l : list value) (v : option value) : bool :=
  existsb (λ x, bool_decide (Some x = v)) l.

(** [if (body.k !== undefined) updates.k = body.k] *)
Definition copy_defined (k : string) (body updates : obj) : obj :=
  match body !! k with
  | Some v => <[k := v]> updates
  | None => updates
  end.

Module TaskController.

Definition allowedPriorities : list value := [Str "High"; Str "Medium"; Str "Low"].

(** The block of one task in the export. *)
Definition export_block (k : Task.t) : string :=
  "ID: " +:+ ToString (Task.id k) +:+ LF +:+
  "Title: " +:+ ToString (Task.title k) +:+ LF +:+
  "Description: " +:+ ToString (Some (Task.description k)) +:+ LF +:+
  "Deadline: " +:+ ToString (Some (Task.deadline k)) +:+ LF +:+
  "Priority: " +:+ ToString (Some (Task.priority k)) +:+ LF +:+
  "Status: " +:+ ToString (Some (Task.status k)) +:+ LF.

(** [createTask(req, res)] with [body = req.body]. *)
Definition createTask (body : obj) (r : TaskRepository.t)
    : response * TaskRepository.t :=
  let title := body !! "title" in
  let description := body !! "description" in
  let deadline := body !! "deadline" in
  let priority := body !! "priority" in
  if negb (truthy title) then
    (respond 400 (Message "Title is required"), r)
  else
    let normalizedPriority :=
      if includes allowedPriorities priority then priority
      else Some (Str "Low") in
    let '(newTask, r') :=
      TaskRepository.addTask
        (set_prop "title" title
          (<["description" := or_else description (Str "")]>
            (<["deadline" := or_else deadline Null]>
              (set_prop "priority" normalizedPriority ∅)))) r in
    (respond 201 (Object (Task.toJSON newTask)), r').

(** [updateTask(req, res)] with [id = parseInt(req.params.id, 10)]. *)
Definition updateTask (id : number) (body : obj) (r : TaskRepository.t)
    : response * TaskRepository.t :=
  let updates :=
    copy_defined "status" body
      (copy_defined "priority" body
        (copy_defined "deadline" body
          (copy_defined "description" body
            (copy_defined "title" body ∅)))) in
  match TaskRepository.updateTask (Some (Num id)) updates r with
  | (None, r') => (respond 404 (Message "Task not found"), r')
  | (Some updated, r') => (respond 200 (Object (Task.toJSON updated)), r')
  end.

(** [deleteTask(req, res)] *)
Definition deleteTask (id : number) (r : TaskRepository.t)
    : response * TaskRepository.t :=
  match TaskRepository.deleteTask (Some (Num id)) r with
  | (false, r') => (respond 404 (Message "Task not found"), r')
  | (true, r') => (respond 204 NoContent, r')
  end.

(** [markCompleted(req, res)] *)
Definition markCompleted (id : number) (r : TaskRepository.t)
    : response * TaskRepository.t :=
  match TaskRepository.markCompleted (Some (Num id)) r with
  | (None, r') => (respond 404 (Message "Task not found"), r')
  | (Some updated, r') => (respond 200 (Object (Task.toJSON updated)), r')
  end.

Section controller.
Context `{!Engine}.

(** [listTasks(req, res)] with [query = req.query]. *)
Definition listTasks (query : obj) (r : TaskRepository.t) : response :=
  respond 200
    (Objects (Task.toJSON <$>
                TaskRepository.getTasks (query !! "sortBy") (query !! "filter") r)).

(** [exportTasks(req, res)]: the text is written to [tasks_export.txt] and
    sent. *)
Definition exportTasks (r : TaskRepository.t) (d : disk) : response * disk :=
  let tasks := TaskRepository.getTasks None None r in
  let lines := export_block <$> tasks in
  let text := String.concat LF lines in
  (respond 200 (Text text),
   {| tasks_json := tasks_json d; tasks_export := Some text |}).

End controller.

End TaskController.

(** ** server.js *)

(** The routes of [server.js]. They repeat the code of the controller on
    the repository. [body] is what [parseRequestBody] resolves to: [None]
    for [null] (no body, or a body that is not JSON). *)
Module server.

Definition allowedPriorities : list value := [Str "High"; Str "Medium"; Str "Low"].

(** [POST /tasks] *)
Definition post_tasks (body : option obj) (r : TaskRepository.t)
    : response * TaskRepository.t :=
  match body with
  | None => (respond 400 (Message "Title is required"), r)
  | Some body =>
      if negb (truthy (body !! "title")) then
        (respond 400 (Message "Title is required"), r)
      else
        let priority :=
          if includes allowedPriorities (body !! "priority")
          then body !! "priority"
          else Some (Str "Low") in
        let '(task, r') :=
          TaskRepository.addTask
            (set_prop "title" (body !! "title")
              (<["description" := or_else (body !! "description") (Str "")]>
                (<["deadline" := or_else (body !! "deadline") Null]>
                  (set_prop "priority" priority ∅)))) r in
        (respond 201 (Object (Task.toJSON task)), r')
  end.

(** [PUT /tasks/:id]; reading a property of a [null] body throws, and the
    server answers 500. *)
Definition put_tasks_id (id : number) (body : option obj) (r : TaskRepository.t)
    : response * TaskRepository.t :=
  match body with
  | None => (respond 500 (Message "Server error"), r)
  | Some body =>
      let updates :=
        copy_defined "status" body
          (copy_defined "priority" body
            (copy_defined "deadline" body
              (copy_defined "description" body
                (copy_defined "title" body ∅)))) in
      match TaskRepository.updateTask (Some (Num id)) updates r with
      | (None, r') => (respond 404 (Message "Task not found"), r')
      | (Some updated, r') => (respond 200 (Object (Task.toJSON updated)), r')
      end
  end.

(** [DELETE /tasks/:id] *)
Definition delete_tasks_id (id : number) (r : TaskRepository.t)
    : response * TaskRepository.t :=
  match TaskRepository.deleteTask (Some (Num id)) r with
  | (false, r') => (respond 404 (Message "Task not found"), r')
  | (true, r') => (respond 204 NoContent, r')
  end.

(** [POST /tasks/:id/complete] *)
Definition post_tasks_id_complete (id : number) (r : TaskRepository.t)
    : response * TaskRepository.t :=
  match TaskRepository.markCompleted (Some (Num id)) r with
  | (None, r') => (respond 404 (Message "Task not found"), r')
  | (Some updated, r') => (respond 200 (Object (Task.toJSON updated)), r')
  end.

Section routes.
Context `{!Engine}.

(** [GET /tasks] *)
Definition get_tasks (query : obj) (r : TaskRepository.t) : response :=
  respond 200
    (Objects (Task.toJSON <$>
                TaskRepository.getTasks (query !! "sortBy") (query !! "filter") r)).

(** [GET /tasks/export], with a write that succeeds (a write that fails is
    logged and the text is sent all the same). *)
Definition get_tasks_export (r : TaskRepository.t) (d : disk) : response * disk :=
  let tasks := TaskRepository.getTasks None None r in
  let lines := TaskController.export_block <$> tasks in
  let text := String.concat LF lines in
  (respond 200 (Text text),
   {| tasks_json := tasks_json d; tasks_export := Some text |}).

End routes.

End server.

(** ** The server process *)

Record system := {
  repo : TaskRepository.t;
  files : disk
}.

(** The requests of the API, with the id already parsed, and the restart of
    the process: [save()] on exit, then a new repository on the same data
    directory. *)
Inductive request :=
  | GET_tasks (query : obj)
  | POST_tasks (body : option obj)
  | PUT_tasks_id (id : number) (body : option obj)
  | DELETE_tasks_id (id : number)
  | POST_tasks_id_complete (id : number)
  | GET_tasks_export
  | Restart.

Definition empty_disk : disk := {| tasks_json := NoFile; tasks_export := None |}.

Definition is_restart (q : request) : bool :=
  match q with
  | Restart => true
  | _ => false
  end.

(** The id a response to a creation carries. *)
Definition created_id (res : option response) : option (option value) :=
  match res with
  | Some {| code := 201; sent := Object o |} => Some (o !! "id")
  | _ => None
  end.

Section process.
Context `{!Engine}.

(** A process started on a data directory. *)
Definition start (d : disk) : system :=
  {| repo := TaskRepository.new (tasks_json d); files := d |}.

Definition handle (q : request) (s : system) : option response * system :=
  match q with
  | GET_tasks query =>
      (Some (server.get_tasks query (repo s)), s)
  | POST_tasks body =>
      let '(res, r) := server.post_tasks body (repo s) in
      (Some res, {| repo := r; files := files s |})
  | PUT_tasks_id id body =>
      let '(res, r) := server.put_tasks_id id body (repo s) in
      (Some res, {| repo := r; files := files s |})
  | DELETE_tasks_id id =>
      let '(res, r) := server.delete_tasks_id id (repo s) in
      (Some res, {| repo := r; files := files s |})
  | POST_tasks_id_complete id =>
      let '(res, r) := server.post_tasks_id_complete id (repo s) in
      (Some res, {| repo := r; files := files s |})
  | GET_tasks_export =>
      let '(res, d) := server.get_tasks_export (repo s) (files s) in
      (Some res, {| repo := repo s; files := d |})
  | Restart =>
      (None,
       start {| tasks_json := TaskRepository.save (repo s);
                tasks_export := tasks_export (files s) |})
  end.

(** A run: the responses, oldest first, and the final state. *)
Fixpoint run (qs : list request) (s : system) : list (option response) * system :=
  match qs with
  | [] => ([], s)
  | q :: qs' =>
      let '(res, s') := handle q s in
      let '(log, s'') := run qs' s' in
      (res :: log, s'')
  end.

(** The ids a run assigns, oldest first. *)
Definition assigned (qs : list request) (s : system) : list (option value) :=
  omap created_id (run qs s).1.

End process.

(** ** The request handler of server.js *)

(** [\d] in a regular expression: an ASCII digit. *)
Definition is_digit (c : ascii) : bool :=
  (48 <=? nat_of_ascii c)%nat && (nat_of_ascii c <=? 57)%nat.

(** The longest prefix of digits, which is what [\d+] takes when a
    character that is not a digit, or the end, has to follow; and the rest. *)
Fixpoint span_digits (s : string) : string * string :=
  match s with
  | String c s' =>
      if is_digit c then
        let '(ds, rest) := span_digits s' in (String c ds, rest)
      else (EmptyString, s)
  | EmptyString => (EmptyString, EmptyString)
  end.

(** [s] without the prefix [p], if it starts with it. *)
Fixpoint strip_prefix (p s : string) : option string :=
  match p, s with
  | EmptyString, _ => Some s
  | String a p', String b s' =>
      if Ascii.eqb a b then strip_prefix p' s' else None
  | String _ _, EmptyString => None
  end.

(** [pathname.match(/^\/tasks\/(\d+)(?:\/complete)?$/)]: the group of the
    match, [None] for [null]. *)
Definition idMatch (pathname : string) : option string :=
  match strip_prefix "/tasks/" pathname with
  | Some s =>
      let '(ds, rest) := span_digits s in
      if negb (String.eqb ds "") &&
         (String.eqb rest "" || String.eqb rest "/complete")
      then Some ds else None
  | None => None
  end.

(** [pathname.match(/^\/tasks\/(\d+)\/complete$/)], as a condition. *)
Definition completeMatch (pathname : string) : bool :=
  match strip_prefix "/tasks/" pathname with
  | Some s =>
      let '(ds, rest) := span_digits s in
      negb (String.eqb ds "") && String.eqb rest "/complete"
  | None => false
  end.

(** [s.split(c)] for a separator of one character. *)
Fixpoint String_split (c : ascii) (s : string) : list string :=
  match s with
  | EmptyString => [EmptyString]
  | String x s' =>
      if Ascii.eqb x c then EmptyString :: String_split c s'
      else
        match String_split c s' with
        | l :: ls => String x l :: ls
        | [] => [String x EmptyString]
        end
  end.

(** [s.endsWith(t)] *)
Definition String_endsWith (s t : string) : bool :=
  (String.length t <=? String.length s)%nat &&
  String.eqb (substring (String.length s - String.length t) (String.length t) s) t.

(** What the handler reads of a request: the method, the path and the
    query of the URL as [url.parse] gives them, and the body as
    [parseRequestBody] resolves it ([None] for [null]). *)
Module req.

Record t := make {
  method : string;
  pathname : string;
  query : obj;
  body : option obj
}.

End req.

(** The two files of the front end, [None] for a file that cannot be
    read. *)
Record frontend := {
  index_html : option string;
  app_js : option string
}.

Section handler.
Context `{!Engine}.

(** [parseInt(s, 10)], the engine's. *)
Context (parseInt : string → number).
Context (fe : frontend).

(** The repository after a route that may change it. *)
Definition with_repo (x : response * TaskRepository.t) (s : system)
    : response * system :=
  (x.1, {| repo := x.2; files := files s |}).

(** The handler given to [http.createServer]: the response and the state
    after it. An exception inside [try] is the response 500; a front-end file
    that cannot be read is logged and the handler goes on to the next
    route. *)
Definition serve (q : req.t) (s : system) : response * system :=
  let method_is m := String.eqb (req.method q) m in
  let pathname := req.pathname q in
  if method_is "OPTIONS" then (respond 204 NoContent, s)
  else if method_is "GET" && String.eqb pathname "/tasks" then
    (server.get_tasks (req.query q) (repo s), s)
  else if method_is "POST" && String.eqb pathname "/tasks" then
    with_repo (server.post_tasks (req.body q) (repo s)) s
  else if method_is "PUT" && bool_decide (is_Some (idMatch pathname)) then
    let id := from_option parseInt NaN (idMatch pathname) in
    with_repo (server.put_tasks_id id (req.body q) (repo s)) s
  else if method_is "DELETE" && bool_decide (is_Some (idMatch pathname)) then
    let id := from_option parseInt NaN (idMatch pathname) in
    with_repo (server.delete_tasks_id id (repo s)) s
  else if method_is "POST" && completeMatch pathname then
    let id := from_option parseInt NaN (String_split "/" pathname !! 2%nat) in
    with_repo (server.post_tasks_id_complete id (repo s)) s
  else if method_is "GET" && String.eqb pathname "/tasks/export" then
    let '(res, d) := server.get_tasks_export (repo s) (files s) in
    (res, {| repo := repo s; files := d |})
  else
    match
      (if method_is "GET" && (String.eqb pathname "/" || String.eqb pathname "/index.html")
       then index_html fe else None)
    with
    | Some content => (respond 200 (Text content), s)
    | None =>
        match
          (if method_is "GET" &&
              (String.eqb pathname "/app.js" || String_endsWith pathname "/app.js")
           then app_js fe else None)
        with
        | Some content => (respond 200 (Text content), s)
        | None => (respond 404 (Message "Not found"), s)
        end
    end.

End handler.

(** [parseInt(s, 10)] of a string of decimal digits. *)
Definition parseInt_decimal (s : string) : number :=
  from_option Int NaN (decimal s).

(** * The vocabulary of the properties *)

(** ** Creation and update *)

(** The object [createTask] hands to [addTask]. *)
Definition create_data (body : obj) : obj :=
  set_prop "title" (body !! "title")
    (<["description" := or_else (body !! "description") (Str "")]>
      (<["deadline" := or_else (body !! "deadline") Null]>
        (set_prop "priority"
           (if includes TaskController.allowedPriorities (body !! "priority")
            then body !! "priority" else Some (Str "Low")) ∅))).

(** The object [updateTask] of the controller hands to the repository. *)
Definition update_data (body : obj) : obj :=
  copy_defined "status" body
    (copy_defined "priority" body
      (copy_defined "deadline" body
        (copy_defined "description" body
          (copy_defined "title" body ∅)))).

(** The task [updateTask] of the repository puts in the place of
    [existing]. *)
Definition overlay (updates : obj) (existing : Task.t) : Task.t :=
  Task.new (set_prop "id" (Task.id existing) (updates ∪ Task.props existing)).

(** A task whose id is the number [z] is in the repository. *)
Definition has_task (z : Z) (r : TaskRepository.t) : Prop :=
  Exists (λ k, Task.id k = Some (Num (Int z))) (TaskRepository.tasks r).

(** No task of the repository has the id [id]. *)
Definition unknown_id (id : number) (r : TaskRepository.t) : Prop :=
  Forall (λ k, Task.id k ≠ Some (Num id)) (TaskRepository.tasks r).

(** ** Persistence and identifiers *)

(** The values that [JSON.stringify] writes as they are: every value but
    [NaN] and the infinities. A request body can hold an infinity, since
    [JSON.parse] reads a number like [1e999] as [Infinity]. *)
Definition json_value (v : option value) : Prop :=
  v ≠ Some (Num NaN) ∧ ∀ negative, v ≠ Some (Num (Infinity negative)).

Definition json_task (k : Task.t) : Prop :=
  json_value (Task.id k) ∧ json_value (Task.title k) ∧
  json_value (Some (Task.description k)) ∧ json_value (Some (Task.deadline k)) ∧
  json_value (Some (Task.priority k)) ∧ json_value (Some (Task.status k)).

(** [a] and [b] are integer ids and [a] is the smaller one. *)
Definition id_lt (a b : option value) : Prop :=
  ∃ x y, a = Some (Num (Int x)) ∧ b = Some (Num (Int y)) ∧ x < y.

(** The greatest of a list of integers, [0] for none: what [load] folds
    the ids to. *)
Definition max_id (zs : list Z) : Z := foldr Z.max 0 zs.

(** The counter the specification asks for after a load: the greatest id
    plus one, and [1] when there is no id. *)
Definition next_after (zs : list Z) : Z :=
  match zs with
  | [] => 1
  | z :: zs' => foldr Z.max z zs' + 1
  end.

(** The ids of the repository are the integers [zs], all of them at least
    [1] and below the counter [n], and no two of them are equal. *)
Definition ids_below (n : Z) (zs : list Z) (r : TaskRepository.t) : Prop :=
  TaskRepository.nextId r = Int n ∧ 1 ≤ n ∧
  Task.id <$> TaskRepository.tasks r = (λ z, Some (Num (Int z))) <$> zs ∧
  Forall (λ z, 1 ≤ z < n) zs ∧
  NoDup zs.

(** Every property of the object is a value that JSON writes as it is. *)
Definition json_obj (o : obj) : Prop := ∀ k, json_value (o !! k).

(** The body of the request, if it has one, is an object whose numbers
    are finite. *)
Definition json_request (q : request) : Prop :=
  match q with
  | POST_tasks (Some body) | PUT_tasks_id _ (Some body) => json_obj body
  | _ => True
  end.

(** ** Sorting by deadline *)

Section deadline_order.

Context `{!Engine}.

(** The task has a deadline: the sort takes a deadline that is [null], or
    falsy like the empty string, for none. *)
Definition has_deadline (k : Task.t) : Prop :=
  truthy (Some (Task.deadline k)) = true.

(** The deadline, if any, is a valid date. *)
Definition deadline_valid (k : Task.t) : Prop :=
  has_deadline k → ∃ t, Date_new (Some (Task.deadline k)) = Int t.

(** Both deadlines are valid dates and that of [a] is not the later one. *)
Definition le_time (a b : Task.t) : Prop :=
  ∃ ta tb, Date_new (Some (Task.deadline a)) = Int ta ∧
           Date_new (Some (Task.deadline b)) = Int tb ∧ ta ≤ tb.

(** [a] may come before [b] in a list sorted by deadline: [b] has no
    deadline, or both have one and that of [a] is not the later one. *)
Definition deadline_le (a b : Task.t) : Prop :=
  ¬ has_deadline b ∨ (has_deadline a ∧ has_deadline b ∧ le_time a b).

End deadline_order.

(** ** Export *)







(** ** Example data *)

Definition buy_milk : Task.t :=
  {| Task.id := Some (Num (Int 1));
     Task.title := Some (Str "Buy milk");
     Task.description := Str "";
     Task.deadline := Null;
     Task.priority := Str "High";
     Task.status := Str "ToDo" |}.

Definition pay_rent : Task.t :=
  {| Task.id := Some (Num (Int 2));
     Task.title := Some (Str "Pay rent");
     Task.description := Str "for March";
     Task.deadline := Str "2024-03-01";
     Task.priority := Str "Medium";
     Task.status := Str "Completed" |}.

Definition file_taxes : Task.t :=
  {| Task.id := Some (Num (Int 3));
     Task.title := Some (Str "File taxes");
     Task.description := Str "";
     Task.deadline := Str "2024-01-15";
     Task.priority := Str "Low";
     Task.status := Str "ToDo" |}.


Definition three_tasks : TaskRepository.t :=
  {| TaskRepository.tasks := [buy_milk; pay_rent; file_taxes];
     TaskRepository.nextId := Int 4 |}.


(** Request bodies: a creation with a priority that is not one of the
    three, a creation that supplies a status, and an update of title and
    description. *)
Definition urgent_milk : obj :=
  <["priority" := Str "Urgent"]> {["title" := Str "Buy milk"]}.

Definition done_milk : obj :=
  <["status" := Str "Completed"]> {["title" := Str "Buy milk"]}.

Definition rent_edit : obj :=
  <["description" := Str "for April"]> {["title" := Str "Pay the rent"]}.

Definition titled (title : string) : option obj := Some {["title" := Str title]}.

(** Two creations, the deletion of the newer task, a restart and a
    creation. *)
Definition delete_restart_create : list request :=
  [POST_tasks (titled "a"); POST_tasks (titled "b"); DELETE_tasks_id (Int 2);
   Restart; POST_tasks (titled "c")].


(** ** Further vocabulary *)



(** The names of the six properties of a task. *)
Definition task_keys : list string :=
  ["id"; "title"; "description"; "deadline"; "priority"; "status"].

(** ** Sorting by priority, and the order of equal tasks *)

(** The place of a priority in the order High, Medium, Low. *)
Definition priority_rank (p : value) : Z :=
  if bool_decide (p = Str "High") then 0
  else if bool_decide (p = Str "Medium") then 1
  else 2.

(** [a] may come before [b] in a list sorted by priority. *)
Definition priority_le (a b : Task.t) : Prop :=
  priority_rank (Task.priority a) ≤ priority_rank (Task.priority b).

(** The priority is one of the three. *)
Definition priority_valid (k : Task.t) : Prop :=
  Task.priority k ∈ TaskController.allowedPriorities.

(** The tasks of one priority. *)
Definition has_priority (p : value) (k : Task.t) : bool :=
  bool_decide (Task.priority k = p).

(** The tasks without a deadline, and those whose deadline is the time
    [t]. *)
Definition no_deadline (k : Task.t) : bool :=
  negb (truthy (Some (Task.deadline k))).

Definition deadline_at `{!Engine} (t : Z) (k : Task.t) : bool :=
  truthy (Some (Task.deadline k)) &&
  bool_decide (Date_new (Some (Task.deadline k)) = Int t).

(** The order of pairs, first components first. *)
Definition lex_lt (p q : Z * Z) : Prop := p.1 < q.1 ∨ (p.1 = q.1 ∧ p.2 < q.2).

(** The order of the sort by deadline as a key: the tasks with a date by
    their time, then those whose deadline is no date, then those without a
    deadline. *)
Definition deadline_key `{!Engine} (k : Task.t) : Z * Z :=
  if truthy (Some (Task.deadline k)) then
    match Date_new (Some (Task.deadline k)) with
    | Int t => (0, t)
    | _ => (1, 0)
    end
  else (2, 0).

(** ** Integers a double holds exactly *)

(** [Number.isSafeInteger]: the integers between [-2^53] and [2^53]. The
    successor of such an integer is computed exactly. *)
Definition safe_integer (z : Z) : Prop := - 2 ^ 53 < z < 2 ^ 53.

(** ** Routes *)

(** A string of digits. *)
Fixpoint all_digits (s : string) : bool :=
  match s with
  | EmptyString => true
  | String c s' => is_digit c && all_digits s'
  end.

(** What [\d+] matches as a whole: a string of one digit or more. *)
Definition id_digits (ds : string) : Prop := ds ≠ "" ∧ all_digits ds = true.

(** What a handler gives, as the answer of a request of the process. *)
Definition answer (x : response * system) : option response * system :=
  (Some x.1, x.2).

(** ** Further example data *)


(** The content of a [tasks.json]: two tasks, the greater id first; and one
    whose second element has no id. *)
Definition stored_file : list obj := [Task.toJSON pay_rent; Task.toJSON buy_milk].

Definition file_without_id : list obj :=
  [Task.toJSON buy_milk; {["title" := Str "No id"]}].

(** A server on the three tasks with no front-end files. *)
Definition three_tasks_system : system :=
  {| repo := three_tasks; files := empty_disk |}.

Definition no_frontend : frontend := {| index_html := None; app_js := None |}.

(** * Properties *)

(** ** Objects *)

Lemma lookup_set_prop (k j : string) (v : option value) (o : obj) :
  set_prop k v o !! j = if decide (k = j) then v else o !! j.
Proof. unfold set_prop. by rewrite lookup_partial_alter. Qed.

Lemma lookup_set_prop_eq (k : string) (v : option value) (o : obj) :
  set_prop k v o !! k = v.
Proof. rewrite lookup_set_prop. by case_decide. Qed.

Lemma lookup_set_prop_ne (k j : string) (v : option value) (o : obj) :
  k ≠ j → set_prop k v o !! j = o !! j.
Proof. intros. rewrite lookup_set_prop. by case_decide. Qed.

Lemma lookup_copy_defined (k j : string) (body updates : obj) :
  copy_defined k body updates !! j =
    if decide (k = j) then body !! k ∪ updates !! k else updates !! j.
Proof.
  unfold copy_defined. case_decide as Hkj.
  - subst j. destruct (body !! k) as [v|] eqn:Hb.
    + rewrite lookup_insert_eq. by destruct (updates !! k).
    + by destruct (updates !! k).
  - destruct (body !! k); [by rewrite lookup_insert_ne|done].
Qed.

(** Lookups in objects built from literal keys. *)
Ltac obj_lookup :=
  repeat first
    [ rewrite lookup_set_prop_eq
    | rewrite lookup_insert_eq
    | rewrite lookup_singleton_eq
    | rewrite lookup_empty
    | rewrite lookup_set_prop_ne by done
    | rewrite lookup_insert_ne by done
    | rewrite lookup_singleton_ne by done ].

Lemma includes_elem_of (l : list value) (v : option value) :
  includes l v = true ↔ ∃ x, v = Some x ∧ x ∈ l.
Proof.
  unfold includes. rewrite existsb_exists. split.
  - intros (x & Hx & Heq). apply bool_decide_eq_true in Heq.
    exists x. split; [done|]. by apply list_elem_of_In.
  - intros (x & -> & Hx). exists x. split; [by apply list_elem_of_In|].
    by apply bool_decide_eq_true.
Qed.

(** ** Creation *)

Lemma createTask_accepted (body : obj) (r : TaskRepository.t) :
  truthy (body !! "title") = true →
  TaskController.createTask body r =
    (respond 201 (Object (Task.toJSON (TaskRepository.addTask (create_data body) r).1)),
     (TaskRepository.addTask (create_data body) r).2).
Proof. intros Ht. unfold TaskController.createTask. by rewrite Ht. Qed.

Lemma createTask_rejected (body : obj) (r : TaskRepository.t) :
  truthy (body !! "title") = false →
  TaskController.createTask body r =
    (respond 400 (Message "Title is required"), r).
Proof. intros Ht. unfold TaskController.createTask. by rewrite Ht. Qed.

Lemma addTask_tasks (data : obj) (r : TaskRepository.t) :
  TaskRepository.tasks (TaskRepository.addTask data r).2 =
    TaskRepository.tasks r ++ [(TaskRepository.addTask data r).1].
Proof. done. Qed.

Lemma addTask_status (data : obj) (r : TaskRepository.t) :
  Task.status (TaskRepository.addTask data r).1 = Str "ToDo".
Proof. simpl. by obj_lookup. Qed.

Lemma addTask_id (data : obj) (r : TaskRepository.t) :
  data !! "id" = None →
  Task.id (TaskRepository.addTask data r).1 = Some (Num (TaskRepository.nextId r)).
Proof.
  intros Hid. simpl. obj_lookup. rewrite lookup_union_r by done. by obj_lookup.
Qed.

Lemma addTask_priority (data : obj) (r : TaskRepository.t) :
  Task.priority (TaskRepository.addTask data r).1 =
    default (Str "Low") (data !! "priority").
Proof.
  simpl. obj_lookup. rewrite lookup_union_l; [done|by obj_lookup].
Qed.

Lemma create_data_id (body : obj) : create_data body !! "id" = None.
Proof. unfold create_data. by obj_lookup. Qed.

Lemma create_data_priority (body : obj) :
  create_data body !! "priority" =
    if includes TaskController.allowedPriorities (body !! "priority")
    then body !! "priority" else Some (Str "Low").
Proof. unfold create_data. by obj_lookup. Qed.

(** C2. Whatever the request body of a creation, the created task's
    priority is High, Medium or Low: a supplied High stays High, a supplied
    Medium stays Medium, a supplied Low stays Low, and a priority that is
    absent or anything else gives Low. The route of the server does the
    same. *)
Theorem createTask_priority_normalized (body : obj) (r : TaskRepository.t) :
  truthy (body !! "title") = true →
  ∃ k r',
    TaskController.createTask body r = (respond 201 (Object (Task.toJSON k)), r') ∧
    server.post_tasks (Some body) r = (respond 201 (Object (Task.toJSON k)), r') ∧
    TaskRepository.tasks r' = TaskRepository.tasks r ++ [k] ∧
    (Task.priority k = Str "High" ∨ Task.priority k = Str "Medium" ∨
     Task.priority k = Str "Low") ∧
    (body !! "priority" = Some (Str "High") → Task.priority k = Str "High") ∧
    (body !! "priority" = Some (Str "Medium") → Task.priority k = Str "Medium") ∧
    (body !! "priority" = Some (Str "Low") → Task.priority k = Str "Low") ∧
    (body !! "priority" ∉ [Some (Str "High"); Some (Str "Medium"); Some (Str "Low")] →
     Task.priority k = Str "Low").
Proof.
  intros Ht. eexists _, _. split; [by apply createTask_accepted|].
  split.
  { change (server.post_tasks (Some body) r)
      with (TaskController.createTask body r). by apply createTask_accepted. }
  split; [by apply addTask_tasks|].
  rewrite addTask_priority, create_data_priority.
  destruct (decide (body !! "priority" = Some (Str "High"))) as [->|Hhigh].
  { split; [by left|]. repeat split; try done. intros Hno. destruct Hno.
    repeat constructor. }
  destruct (decide (body !! "priority" = Some (Str "Medium"))) as [->|Hmedium].
  { split; [by right; left|]. repeat split; try done. intros Hno. destruct Hno.
    repeat constructor. }
  destruct (decide (body !! "priority" = Some (Str "Low"))) as [->|Hlow].
  { split; [by right; right|]. by repeat split. }
  assert (includes TaskController.allowedPriorities (body !! "priority") = false)
    as ->.
  { destruct (includes _ _) eqn:Hinc; [|done].
    apply includes_elem_of in Hinc as (x & Hx & Hin).
    unfold TaskController.allowedPriorities in Hin.
    rewrite !elem_of_cons, elem_of_nil in Hin.
    destruct Hin as [-> | [-> | [-> | []]]]; done. }
  split; [by right; right|]. by repeat split.
Qed.

(** C3. A creation whose title is absent or empty is rejected with the
    validation error, and the repository is what it was: no task is
    returned and none is added. The route of the server does the same, also
    for a request without a body. *)
Theorem createTask_title_required (body : obj) (r : TaskRepository.t) :
  body !! "title" = None ∨ body !! "title" = Some (Str "") →
  TaskController.createTask body r =
    (respond 400 (Message "Title is required"), r) ∧
  server.post_tasks (Some body) r =
    (respond 400 (Message "Title is required"), r) ∧
  server.post_tasks None r =
    (respond 400 (Message "Title is required"), r).
Proof.
  intros Htitle.
  assert (truthy (body !! "title") = false) as Hfalsy
    by (by destruct Htitle as [-> | ->]).
  split; [by apply createTask_rejected|].
  split; [|done]. change (server.post_tasks (Some body) r)
    with (TaskController.createTask body r).
  by apply createTask_rejected.
Qed.

(** C4. Whatever the request body of a creation, and whatever status it
    supplies, the created task's status is ToDo; so is the status of every
    task [addTask] makes. *)
Theorem createTask_status_ToDo (body : obj) (r : TaskRepository.t) :
  truthy (body !! "title") = true →
  (∃ k r',
    TaskController.createTask body r = (respond 201 (Object (Task.toJSON k)), r') ∧
    TaskRepository.tasks r' = TaskRepository.tasks r ++ [k] ∧
    Task.status k = Str "ToDo" ∧
    Task.toJSON k !! "status" = Some (Str "ToDo")) ∧
  (∀ data, Task.status (TaskRepository.addTask data r).1 = Str "ToDo").
Proof.
  intros Ht. split; [|intros data; apply addTask_status].
  eexists _, _. split; [by apply createTask_accepted|].
  split; [by apply addTask_tasks|].
  rewrite addTask_status. split; [done|].
  unfold Task.toJSON, Task.props. obj_lookup. by rewrite addTask_status.
Qed.

(** ** Lookup by id *)

Lemma strict_eq_true (a b : option value) : strict_eq a b = true → a = b.
Proof.
  unfold strict_eq. intros Heq.
  destruct a as [[| |[| |[|]]|]|], b as [[| |[| |[|]]|]|];
    first [done | by apply bool_decide_eq_true in Heq].
Qed.

Lemma strict_eq_Int (a : option value) (z : Z) :
  strict_eq a (Some (Num (Int z))) = bool_decide (a = Some (Num (Int z))).
Proof.
  unfold strict_eq. by destruct a as [[| |[| |[|]]|]|].
Qed.

Lemma strict_eq_ne (a b : option value) : a ≠ b → strict_eq a b = false.
Proof.
  intros Hne. destruct (strict_eq a b) eqn:Heq; [|done].
  by apply strict_eq_true in Heq.
Qed.

Lemma findIndex_None {A} (p : A → bool) (l : list A) :
  findIndex p l = None ↔ ∀ x, x ∈ l → p x = false.
Proof.
  induction l as [|y l IH]; simpl.
  - split; [|done]. intros _ x Hx. by apply elem_of_nil in Hx.
  - destruct (p y) eqn:Hy.
    + split; [done|]. intros Hall. specialize (Hall y). rewrite Hy in Hall.
      discriminate Hall. by left.
    + rewrite fmap_None, IH. split.
      * intros Hall x Hx. apply elem_of_cons in Hx as [->|Hx]; auto.
      * intros Hall x Hx. apply Hall. by right.
Qed.

Lemma findIndex_Some {A} (p : A → bool) (l : list A) (i : nat) :
  findIndex p l = Some i ↔
    ∃ x, l !! i = Some x ∧ p x = true ∧
         ∀ j y, (j < i)%nat → l !! j = Some y → p y = false.
Proof.
  revert i. induction l as [|y l IH]; intros i; simpl.
  - split; [done|]. by intros (x & Hx & _).
  - destruct (p y) eqn:Hy.
    + split.
      * intros [= <-]. exists y. split; [done|]. split; [done|]. lia.
      * intros (x & Hx & Hpx & Hfirst). destruct i as [|i]; [done|].
        specialize (Hfirst 0%nat y). rewrite Hy in Hfirst.
        discriminate Hfirst; [lia|done].
    + rewrite fmap_Some. split.
      * intros (i' & Hi' & ->). apply IH in Hi' as (x & Hx & Hpx & Hfirst).
        exists x. split; [done|]. split; [done|].
        intros [|j] z Hj Hz; simplify_eq/=; [done|]. apply (Hfirst j); [lia|done].
      * intros (x & Hx & Hpx & Hfirst). destruct i as [|i'].
        { simpl in Hx. injection Hx as ->. congruence. }
        exists i'. split; [|done]. apply IH. exists x. split; [done|].
        split; [done|]. intros j z Hj Hz. apply (Hfirst (S j)); [lia|done].
Qed.

Lemma findIndex_is_Some {A} (p : A → bool) (l : list A) (x : A) :
  x ∈ l → p x = true → is_Some (findIndex p l).
Proof.
  intros Hx Hp. destruct (findIndex p l) eqn:Hf; [eauto|].
  rewrite findIndex_None in Hf. specialize (Hf x Hx). congruence.
Qed.

Lemma findIndex_unknown (id : number) (r : TaskRepository.t) :
  unknown_id id r →
  findIndex (λ k, strict_eq (Task.id k) (Some (Num id))) (TaskRepository.tasks r) = None.
Proof.
  intros Hun. apply findIndex_None. intros k Hk. apply strict_eq_ne.
  unfold unknown_id in Hun. rewrite Forall_forall in Hun. by apply Hun.
Qed.

Lemma findIndex_known (z : Z) (r : TaskRepository.t) :
  has_task z r →
  ∃ i existing,
    findIndex (λ k, strict_eq (Task.id k) (Some (Num (Int z))))
      (TaskRepository.tasks r) = Some i ∧
    TaskRepository.tasks r !! i = Some existing ∧
    Task.id existing = Some (Num (Int z)) ∧
    ∀ j k, (j < i)%nat → TaskRepository.tasks r !! j = Some k →
           Task.id k ≠ Some (Num (Int z)).
Proof.
  intros (k & Hk & Hid)%Exists_exists.
  destruct (findIndex_is_Some (λ k, strict_eq (Task.id k) (Some (Num (Int z))))
              (TaskRepository.tasks r) k Hk) as [i Hi].
  { rewrite strict_eq_Int. by apply bool_decide_eq_true. }
  pose proof Hi as Hi'. apply findIndex_Some in Hi' as (x & Hx & Hpx & Hfirst).
  exists i, x. split; [done|]. split; [done|]. split.
  - by apply strict_eq_true in Hpx.
  - intros j y Hj Hy Heq. specialize (Hfirst j y Hj Hy).
    rewrite strict_eq_Int in Hfirst. by apply bool_decide_eq_false in Hfirst.
Qed.

(** ** Unknown ids *)

(** C6. For an id that no task of the collection has, update, delete and
    complete each answer not found (the repository returns [null] or
    [false], the controller sends 404) and leave the repository as it was. *)
Theorem unknown_id_not_found (id : number) (body updates : obj)
    (r : TaskRepository.t) :
  unknown_id id r →
  TaskRepository.updateTask (Some (Num id)) updates r = (None, r) ∧
  TaskRepository.deleteTask (Some (Num id)) r = (false, r) ∧
  TaskRepository.markCompleted (Some (Num id)) r = (None, r) ∧
  TaskController.updateTask id body r = (respond 404 (Message "Task not found"), r) ∧
  TaskController.deleteTask id r = (respond 404 (Message "Task not found"), r) ∧
  TaskController.markCompleted id r = (respond 404 (Message "Task not found"), r).
Proof.
  intros Hun. apply findIndex_unknown in Hun.
  assert (∀ u, TaskRepository.updateTask (Some (Num id)) u r = (None, r)) as Hup.
  { intros u. unfold TaskRepository.updateTask. by rewrite Hun. }
  assert (TaskRepository.deleteTask (Some (Num id)) r = (false, r)) as Hdel.
  { unfold TaskRepository.deleteTask. by rewrite Hun. }
  unfold TaskController.updateTask, TaskController.deleteTask,
    TaskController.markCompleted, TaskRepository.markCompleted.
  by rewrite !Hup, Hdel.
Qed.

(** ** Update, delete, complete *)

Lemma props_id (k : Task.t) : Task.props k !! "id" = Task.id k.
Proof. unfold Task.props. by obj_lookup. Qed.

Lemma props_title (k : Task.t) : Task.props k !! "title" = Task.title k.
Proof. unfold Task.props. by obj_lookup. Qed.

Lemma props_description (k : Task.t) :
  Task.props k !! "description" = Some (Task.description k).
Proof. unfold Task.props. by obj_lookup. Qed.

Lemma props_deadline (k : Task.t) :
  Task.props k !! "deadline" = Some (Task.deadline k).
Proof. unfold Task.props. by obj_lookup. Qed.

Lemma props_priority (k : Task.t) :
  Task.props k !! "priority" = Some (Task.priority k).
Proof. unfold Task.props. by obj_lookup. Qed.

Lemma props_status (k : Task.t) :
  Task.props k !! "status" = Some (Task.status k).
Proof. unfold Task.props. by obj_lookup. Qed.

Lemma default_union (new : option value) (old : value) (d : value) :
  default d (new ∪ Some old) = default old new.
Proof. by destruct new. Qed.

Lemma overlay_fields (updates : obj) (existing : Task.t) :
  Task.id (overlay updates existing) = Task.id existing ∧
  Task.title (overlay updates existing) =
    from_option Some (Task.title existing) (updates !! "title") ∧
  Task.description (overlay updates existing) =
    default (Task.description existing) (updates !! "description") ∧
  Task.deadline (overlay updates existing) =
    default (Task.deadline existing) (updates !! "deadline") ∧
  Task.priority (overlay updates existing) =
    default (Task.priority existing) (updates !! "priority") ∧
  Task.status (overlay updates existing) =
    default (Task.status existing) (updates !! "status").
Proof.
  unfold overlay. simpl. obj_lookup. rewrite !lookup_union.
  rewrite props_title, props_description, props_deadline, props_priority,
    props_status, !default_union.
  repeat split. by destruct (updates !! "title"), (Task.title existing).
Qed.

Lemma update_data_lookup (body : obj) (f : string) :
  f ∈ ["title"; "description"; "deadline"; "priority"; "status"] →
  update_data body !! f = body !! f.
Proof.
  intros Hf. unfold update_data. rewrite !lookup_copy_defined, lookup_empty.
  set_unfold. destruct Hf as [->|[->|[->|[->|[->|[]]]]]];
    repeat case_decide; try done; by destruct (body !! _).
Qed.

Lemma repository_updateTask_known (z : Z) (updates : obj) (r : TaskRepository.t) :
  has_task z r →
  ∃ i existing,
    TaskRepository.tasks r !! i = Some existing ∧
    Task.id existing = Some (Num (Int z)) ∧
    (∀ j k, (j < i)%nat → TaskRepository.tasks r !! j = Some k →
            Task.id k ≠ Some (Num (Int z))) ∧
    TaskRepository.updateTask (Some (Num (Int z))) updates r =
      (Some (overlay updates existing),
       {| TaskRepository.tasks := <[i := overlay updates existing]> (TaskRepository.tasks r);
          TaskRepository.nextId := TaskRepository.nextId r |}).
Proof.
  intros Hhas. apply findIndex_known in Hhas as (i & existing & Hi & Hex & Hid & Hfirst).
  exists i, existing. split; [done|]. split; [done|]. split; [done|].
  unfold TaskRepository.updateTask. by rewrite Hi, Hex.
Qed.

Lemma repository_deleteTask_known (z : Z) (r : TaskRepository.t) :
  has_task z r →
  ∃ i existing,
    TaskRepository.tasks r !! i = Some existing ∧
    Task.id existing = Some (Num (Int z)) ∧
    (∀ j k, (j < i)%nat → TaskRepository.tasks r !! j = Some k →
            Task.id k ≠ Some (Num (Int z))) ∧
    TaskRepository.deleteTask (Some (Num (Int z))) r =
      (true,
       {| TaskRepository.tasks := delete i (TaskRepository.tasks r);
          TaskRepository.nextId := TaskRepository.nextId r |}).
Proof.
  intros Hhas. apply findIndex_known in Hhas as (i & existing & Hi & Hex & Hid & Hfirst).
  exists i, existing. split; [done|]. split; [done|]. split; [done|].
  unfold TaskRepository.deleteTask. by rewrite Hi.
Qed.

(** C5. An update of an existing task puts, at the task's place, a task
    with the same id in which each of title, description, deadline,
    priority and status is the body's value when the body has the field and
    the value it had before when the body does not have it; so a body with
    only title and description leaves deadline, priority and status as they
    were. *)
Theorem updateTask_overlays_present_fields (z : Z) (body : obj)
    (r : TaskRepository.t) :
  has_task z r →
  ∃ i existing updated,
    TaskRepository.tasks r !! i = Some existing ∧
    Task.id existing = Some (Num (Int z)) ∧
    TaskController.updateTask (Int z) body r =
      (respond 200 (Object (Task.toJSON updated)),
       {| TaskRepository.tasks := <[i := updated]> (TaskRepository.tasks r);
          TaskRepository.nextId := TaskRepository.nextId r |}) ∧
    Task.id updated = Task.id existing ∧
    Task.title updated = from_option Some (Task.title existing) (body !! "title") ∧
    Task.description updated =
      default (Task.description existing) (body !! "description") ∧
    Task.deadline updated = default (Task.deadline existing) (body !! "deadline") ∧
    Task.priority updated = default (Task.priority existing) (body !! "priority") ∧
    Task.status updated = default (Task.status existing) (body !! "status") ∧
    (body !! "deadline" = None → body !! "priority" = None →
     body !! "status" = None →
     Task.deadline updated = Task.deadline existing ∧
     Task.priority updated = Task.priority existing ∧
     Task.status updated = Task.status existing).
Proof.
  intros Hhas.
  destruct (repository_updateTask_known z (update_data body) r Hhas)
    as (i & existing & Hex & Hid & _ & Hup).
  exists i, existing, (overlay (update_data body) existing).
  split; [done|]. split; [done|]. split.
  { unfold TaskController.updateTask. fold (update_data body). by rewrite Hup. }
  destruct (overlay_fields (update_data body) existing)
    as (Ho1 & Ho2 & Ho3 & Ho4 & Ho5 & Ho6).
  rewrite !update_data_lookup in Ho2, Ho3, Ho4, Ho5, Ho6 by repeat constructor.
  repeat (split; [done|]).
  intros Hd Hp Hs. by rewrite Ho4, Ho5, Ho6, Hd, Hp, Hs.
Qed.

(** C10. A creation appends the new task to the collection, whatever the
    collection, the empty one included, and leaves every task at its index;
    an update of an existing id puts the updated task at the index the task
    had and leaves every other index as it was; a deletion of an existing id
    removes the task at its index and keeps the tasks before and after it in
    order. *)
Theorem mutations_keep_positions (z : Z) (data updates : obj)
    (r : TaskRepository.t) :
  (TaskRepository.tasks (TaskRepository.addTask data r).2 =
     TaskRepository.tasks r ++ [(TaskRepository.addTask data r).1] ∧
   (∀ j k, TaskRepository.tasks r !! j = Some k →
           TaskRepository.tasks (TaskRepository.addTask data r).2 !! j = Some k) ∧
   TaskRepository.tasks (TaskRepository.addTask data r).2
     !! length (TaskRepository.tasks r) = Some (TaskRepository.addTask data r).1 ∧
   length (TaskRepository.tasks (TaskRepository.addTask data r).2) =
     S (length (TaskRepository.tasks r))) ∧
  (has_task z r →
   (∃ i existing updated r',
     TaskRepository.tasks r !! i = Some existing ∧
     Task.id existing = Some (Num (Int z)) ∧
     TaskRepository.updateTask (Some (Num (Int z))) updates r = (Some updated, r') ∧
     Task.id updated = Some (Num (Int z)) ∧
     TaskRepository.tasks r' !! i = Some updated ∧
     length (TaskRepository.tasks r') = length (TaskRepository.tasks r) ∧
     ∀ j, j ≠ i → TaskRepository.tasks r' !! j = TaskRepository.tasks r !! j) ∧
   (∃ i existing r',
     TaskRepository.tasks r !! i = Some existing ∧
     Task.id existing = Some (Num (Int z)) ∧
     TaskRepository.deleteTask (Some (Num (Int z))) r = (true, r') ∧
     TaskRepository.tasks r' =
       take i (TaskRepository.tasks r) ++ drop (S i) (TaskRepository.tasks r))).
Proof.
  split.
  { rewrite addTask_tasks. split; [done|]. split; [|split].
    - intros j k Hk. by apply lookup_app_l_Some.
    - by rewrite list_lookup_middle.
    - rewrite length_app. simpl. lia. }
  intros Hhas. split.
  - destruct (repository_updateTask_known z updates r Hhas)
      as (i & existing & Hex & Hid & _ & Hup).
    exists i, existing, (overlay updates existing).
    eexists. split; [done|]. split; [done|]. split; [exact Hup|].
    destruct (overlay_fields updates existing) as (-> & _).
    split; [done|]. apply lookup_lt_Some in Hex as Hlt. simpl.
    split; [by apply list_lookup_insert_eq|].
    split; [by rewrite length_insert|].
    intros j Hj. by apply list_lookup_insert_ne.
  - destruct (repository_deleteTask_known z r Hhas)
      as (i & existing & Hex & Hid & _ & Hdel).
    eexists i, existing, _. split; [done|]. split; [done|].
    split; [exact Hdel|]. simpl. apply delete_take_drop.
Qed.

(** ** Persistence *)

Lemma JSON_value_id (v : option value) : json_value v → JSON_value <$> v = v.
Proof.
  intros [Hnan Hinf]. destruct v as [[| |[|z|negative]|]|]; try done.
  by destruct (Hinf negative).
Qed.

Lemma new_props (k : Task.t) : Task.new (Task.props k) = k.
Proof.
  destruct k as [i t d dl p s]. unfold Task.new.
  rewrite props_id, props_title, props_description, props_deadline,
    props_priority, props_status. done.
Qed.

Lemma new_JSON_object (k : Task.t) :
  json_task k → Task.new (JSON_object (Task.toJSON k)) = k.
Proof.
  intros (Hi & Ht & Hd & Hdl & Hp & Hs).
  rewrite <- (new_props k) at 2. unfold Task.new, JSON_object, Task.toJSON.
  rewrite !lookup_fmap.
  rewrite props_id, props_title, props_description, props_deadline,
    props_priority, props_status.
  by rewrite !JSON_value_id.
Qed.

Lemma new_save_tasks `{!Engine} (r : TaskRepository.t) :
  TaskRepository.tasks (TaskRepository.new (TaskRepository.save r)) =
    (λ k, Task.new (JSON_object (Task.toJSON k))) <$> TaskRepository.tasks r.
Proof. simpl. by rewrite <- list_fmap_compose. Qed.




(** ** Identifiers *)

Lemma max_id_upper (zs : list Z) : Forall (λ z, z ≤ max_id zs) zs.
Proof.
  induction zs as [|z zs IH]; [done|]. constructor; simpl; [lia|].
  eapply Forall_impl; [exact IH|]. simpl. intros; lia.
Qed.

Lemma next_after_max_id (zs : list Z) :
  Forall (λ z, 0 ≤ z) zs → next_after zs = max_id zs + 1.
Proof.
  destruct zs as [|z zs]; [done|]. intros Hpos.
  apply Forall_cons in Hpos as [Hz Hpos]. simpl. f_equal.
  revert z Hz. induction Hpos as [|y ys Hy _ IH]; intros z Hz; simpl; [lia|].
  rewrite (IH z Hz). unfold max_id. lia.
Qed.

Lemma foldl_max_id (zs : list Z) (acc : Z) :
  0 ≤ acc → foldl Z.max acc zs = Z.max acc (max_id zs).
Proof.
  revert acc. induction zs as [|z zs IH]; intros acc Hacc; simpl; [lia|].
  rewrite IH by lia. lia.
Qed.

Lemma repository_updateTask_cases (id : option value) (updates : obj)
    (r : TaskRepository.t) :
  TaskRepository.updateTask id updates r = (None, r) ∨
  ∃ i existing,
    TaskRepository.tasks r !! i = Some existing ∧
    TaskRepository.updateTask id updates r =
      (Some (overlay updates existing),
       {| TaskRepository.tasks := <[i := overlay updates existing]> (TaskRepository.tasks r);
          TaskRepository.nextId := TaskRepository.nextId r |}).
Proof.
  unfold TaskRepository.updateTask. destruct (findIndex _ _) as [i|]; [|by left].
  destruct (TaskRepository.tasks r !! i) as [existing|] eqn:Hex; [|by left].
  right. by exists i, existing.
Qed.

Lemma repository_deleteTask_cases (id : option value) (r : TaskRepository.t) :
  TaskRepository.deleteTask id r = (false, r) ∨
  ∃ i, TaskRepository.deleteTask id r =
         (true,
          {| TaskRepository.tasks := delete i (TaskRepository.tasks r);
             TaskRepository.nextId := TaskRepository.nextId r |}).
Proof.
  unfold TaskRepository.deleteTask. destruct (findIndex _ _) as [i|]; [|by left].
  right. by exists i.
Qed.

Lemma ids_below_updateTask (n : Z) (zs : list Z) (id : option value)
    (updates : obj) (r : TaskRepository.t) :
  ids_below n zs r → ids_below n zs (TaskRepository.updateTask id updates r).2.
Proof.
  intros Hinv.
  destruct (repository_updateTask_cases id updates r)
    as [->|(i & existing & Hex & ->)]; [done|].
  destruct Hinv as (Hn & Hn1 & Hids & Hall & Hnd).
  split; [done|]. split; [done|]. split; [|done].
  simpl. rewrite list_fmap_insert, <- Hids.
  destruct (overlay_fields updates existing) as (-> & _).
  apply list_insert_id. by rewrite list_lookup_fmap, Hex.
Qed.

Lemma ids_below_deleteTask (n : Z) (zs : list Z) (id : option value)
    (r : TaskRepository.t) :
  ids_below n zs r → ∃ zs', ids_below n zs' (TaskRepository.deleteTask id r).2.
Proof.
  intros Hinv.
  destruct (repository_deleteTask_cases id r) as [->|(i & ->)]; [by exists zs|].
  destruct Hinv as (Hn & Hn1 & Hids & Hall & Hnd). exists (delete i zs).
  split; [done|]. split; [done|]. split; [|split].
  - simpl. by rewrite !list_fmap_delete, Hids.
  - by apply Forall_delete.
  - eapply sublist_NoDup; [exact Hnd|apply sublist_delete].
Qed.

Lemma ids_below_addTask (n : Z) (zs : list Z) (data : obj)
    (r : TaskRepository.t) :
  data !! "id" = None → ids_below n zs r →
  Task.id (TaskRepository.addTask data r).1 = Some (Num (Int n)) ∧
  ids_below (n + 1) (zs ++ [n]) (TaskRepository.addTask data r).2.
Proof.
  intros Hdata (Hn & Hn1 & Hids & Hall & Hnd).
  pose proof (addTask_id data r Hdata) as Hid. rewrite Hn in Hid.
  split; [done|]. split; [|split; [|split; [|split]]].
  - simpl. by rewrite Hn.
  - lia.
  - rewrite addTask_tasks, !fmap_app, Hids. f_equal.
    change ([Task.id (TaskRepository.addTask data r).1] = [Some (Num (Int n))]).
    by rewrite Hid.
  - apply Forall_app. split.
    + eapply Forall_impl; [exact Hall|]. simpl. intros; lia.
    + constructor; [lia|done].
  - apply NoDup_app. split; [done|]. split; [|apply NoDup_singleton].
    intros z Hz Hin. apply list_elem_of_singleton in Hin as ->.
    rewrite Forall_forall in Hall. specialize (Hall n Hz). lia.
Qed.

Lemma controller_updateTask_repo (id : number) (body : obj) (r : TaskRepository.t) :
  (TaskController.updateTask id body r).2 =
    (TaskRepository.updateTask (Some (Num id)) (update_data body) r).2 ∧
  code (TaskController.updateTask id body r).1 ≠ 201.
Proof.
  unfold TaskController.updateTask. fold (update_data body).
  by destruct (TaskRepository.updateTask _ _ r) as [[u|] r'].
Qed.

Lemma controller_markCompleted_repo (id : number) (r : TaskRepository.t) :
  (TaskController.markCompleted id r).2 =
    (TaskRepository.updateTask (Some (Num id)) {["status" := Str "Completed"]} r).2 ∧
  code (TaskController.markCompleted id r).1 ≠ 201.
Proof.
  unfold TaskController.markCompleted, TaskRepository.markCompleted.
  by destruct (TaskRepository.updateTask _ _ r) as [[u|] r'].
Qed.

Lemma controller_deleteTask_repo (id : number) (r : TaskRepository.t) :
  (TaskController.deleteTask id r).2 =
    (TaskRepository.deleteTask (Some (Num id)) r).2 ∧
  code (TaskController.deleteTask id r).1 ≠ 201.
Proof.
  unfold TaskController.deleteTask.
  by destruct (TaskRepository.deleteTask _ r) as [[|] r'].
Qed.

(** The routes of the server are the handlers of the controller. *)
Lemma post_tasks_Some (body : obj) (r : TaskRepository.t) :
  server.post_tasks (Some body) r = TaskController.createTask body r.
Proof. done. Qed.

Lemma put_tasks_id_Some (id : number) (body : obj) (r : TaskRepository.t) :
  server.put_tasks_id id (Some body) r = TaskController.updateTask id body r.
Proof. done. Qed.

Lemma delete_tasks_id_eq (id : number) (r : TaskRepository.t) :
  server.delete_tasks_id id r = TaskController.deleteTask id r.
Proof. done. Qed.

Lemma post_tasks_id_complete_eq (id : number) (r : TaskRepository.t) :
  server.post_tasks_id_complete id r = TaskController.markCompleted id r.
Proof. done. Qed.

Section identifiers.

Context `{!Engine}.

Lemma foldl_Math_max (ks : list Task.t) (zs : list Z) (acc : Z) :
  Task.id <$> ks = (λ z, Some (Num (Int z))) <$> zs →
  foldl (λ acc k, Math_max acc (ToNumber (Task.id k))) (Int acc) ks =
    Int (foldl Z.max acc zs).
Proof.
  revert zs acc. induction ks as [|k ks IH]; intros [|z zs] acc Hids;
    try done.
  rewrite !fmap_cons in Hids. injection Hids as Hid Hids.
  cbn [foldl]. rewrite Hid. cbn [ToNumber Math_max]. by apply IH.
Qed.

(** [load] on an array whose ids are the integers [zs]. *)
Lemma new_Json_nextId (data : list obj) (zs : list Z) :
  (λ o : obj, o !! "id") <$> data = (λ z, Some (Num (Int z))) <$> zs →
  TaskRepository.nextId (TaskRepository.new (Json data)) = Int (max_id zs + 1).
Proof.
  intros Hids. simpl.
  rewrite (foldl_Math_max _ zs 0).
  - simpl. rewrite foldl_max_id by lia. f_equal.
    pose proof (max_id_upper zs). assert (0 ≤ max_id zs); [|lia].
    clear. induction zs; simpl; lia.
  - by rewrite <- list_fmap_compose.
Qed.

Lemma new_save_ids (zs : list Z) (r : TaskRepository.t) :
  Task.id <$> TaskRepository.tasks r = (λ z, Some (Num (Int z))) <$> zs →
  Task.id <$> TaskRepository.tasks (TaskRepository.new (TaskRepository.save r)) =
    (λ z, Some (Num (Int z))) <$> zs.
Proof.
  intros Hids. rewrite new_save_tasks, <- list_fmap_compose.
  rewrite <- Hids. apply list_eq. intros i. rewrite !list_lookup_fmap.
  assert (TaskRepository.tasks r !! i ≫= (λ k, Task.id k) =
          ((λ z, Some (Num (Int z))) <$> zs) !! i ≫= λ x, x) as Hi.
  { rewrite <- Hids, list_lookup_fmap. by destruct (TaskRepository.tasks r !! i). }
  destruct (TaskRepository.tasks r !! i) as [k|] eqn:Hk; [|done]. simpl in *.
  f_equal. unfold JSON_object, Task.toJSON. rewrite lookup_fmap, props_id.
  rewrite Hi. rewrite list_lookup_fmap. by destruct (zs !! i).
Qed.

Lemma ids_below_restart (n : Z) (zs : list Z) (r : TaskRepository.t) :
  ids_below n zs r →
  ids_below (next_after zs) zs (TaskRepository.new (TaskRepository.save r)).
Proof.
  intros (Hn & Hn1 & Hids & Hall & Hnd).
  rewrite next_after_max_id
    by (eapply Forall_impl; [exact Hall|]; simpl; intros; lia).
  assert (0 ≤ max_id zs) by (clear; induction zs; simpl; lia).
  split; [|split; [lia|split; [by apply new_save_ids|split; [|done]]]].
  - apply new_Json_nextId. rewrite <- (new_save_ids zs r Hids).
    rewrite new_save_tasks. simpl. rewrite <- !list_fmap_compose. done.
  - pose proof (max_id_upper zs) as Hup. rewrite Forall_forall in Hall, Hup.
    apply Forall_forall. intros z Hz. specialize (Hall z Hz).
    specialize (Hup z Hz). lia.
Qed.

Lemma get_tasks_export_eq (r : TaskRepository.t) (d : disk) :
  server.get_tasks_export r d = TaskController.exportTasks r d.
Proof. done. Qed.

Lemma get_tasks_eq (query : obj) (r : TaskRepository.t) :
  server.get_tasks query r = TaskController.listTasks query r.
Proof. done. Qed.

Lemma run_cons (q : request) (qs : list request) (s : system) :
  run (q :: qs) s =
    ((handle q s).1 :: (run qs (handle q s).2).1, (run qs (handle q s).2).2).
Proof.
  cbn [run]. destruct (handle q s) as [res s']. cbn [fst snd].
  by destruct (run qs s').
Qed.

Lemma assigned_cons (q : request) (qs : list request) (s : system) :
  assigned (q :: qs) s =
    match created_id (handle q s).1 with
    | Some i => i :: assigned qs (handle q s).2
    | None => assigned qs (handle q s).2
    end.
Proof. unfold assigned. by rewrite run_cons. Qed.

Lemma created_id_not_201 (res : response) :
  code res ≠ 201 → created_id (Some res) = None.
Proof.
  destruct res as [c p]. simpl. intros Hc.
  destruct c as [|c|c]; try done.
  repeat (destruct c as [c|c|]; try done).
Qed.

Lemma handle_repo (q : request) (s : system) :
  repo (handle q s).2 =
    match q with
    | GET_tasks _ | GET_tasks_export => repo s
    | POST_tasks body => (server.post_tasks body (repo s)).2
    | PUT_tasks_id id body => (server.put_tasks_id id body (repo s)).2
    | DELETE_tasks_id id => (server.delete_tasks_id id (repo s)).2
    | POST_tasks_id_complete id => (server.post_tasks_id_complete id (repo s)).2
    | Restart => TaskRepository.new (TaskRepository.save (repo s))
    end.
Proof.
  destruct q as [query|body|id body|id|id| |]; cbn [handle]; try done.
  - by destruct (server.post_tasks body (repo s)).
  - by destruct (server.put_tasks_id id body (repo s)).
  - by destruct (server.delete_tasks_id id (repo s)).
  - by destruct (server.post_tasks_id_complete id (repo s)).
Qed.

Lemma handle_response (q : request) (s : system) :
  (handle q s).1 =
    match q with
    | GET_tasks query => Some (server.get_tasks query (repo s))
    | POST_tasks body => Some (server.post_tasks body (repo s)).1
    | PUT_tasks_id id body => Some (server.put_tasks_id id body (repo s)).1
    | DELETE_tasks_id id => Some (server.delete_tasks_id id (repo s)).1
    | POST_tasks_id_complete id => Some (server.post_tasks_id_complete id (repo s)).1
    | GET_tasks_export => Some (server.get_tasks_export (repo s) (files s)).1
    | Restart => None
    end.
Proof.
  destruct q as [query|body|id body|id|id| |]; cbn [handle]; try done.
  - by destruct (server.post_tasks body (repo s)).
  - by destruct (server.put_tasks_id id body (repo s)).
  - by destruct (server.delete_tasks_id id (repo s)).
  - by destruct (server.post_tasks_id_complete id (repo s)).
Qed.

(** One request: the invariant on the ids goes on, the counter does not go
    down unless the process restarts, and a creation assigns the counter. *)
Lemma handle_ids_below (q : request) (s : system) (n : Z) (zs : list Z) :
  ids_below n zs (repo s) →
  ∃ n' zs',
    ids_below n' zs' (repo (handle q s).2) ∧
    (is_restart q = false → n ≤ n') ∧
    (∀ i, created_id (handle q s).1 = Some i → i = Some (Num (Int n)) ∧ n < n').
Proof.
  intros Hinv. rewrite handle_repo, handle_response.
  destruct q as [query|[body|]|id [body|]|id|id| |].
  - exists n, zs. split; [done|]. split; [done|]. by intros i Hi.
  - rewrite post_tasks_Some. destruct (truthy (body !! "title")) eqn:Ht.
    + rewrite (createTask_accepted body _ Ht). cbn [fst snd].
      destruct (ids_below_addTask n zs (create_data body) (repo s)
                  (create_data_id body) Hinv) as [Hid Hinv'].
      exists (n + 1), (zs ++ [n]). split; [done|]. split; [lia|].
      intros i [= <-]. unfold Task.toJSON. rewrite props_id.
      split; [done|lia].
    + rewrite (createTask_rejected body _ Ht). cbn [fst snd].
      exists n, zs. split; [done|]. split; [done|]. by intros i Hi.
  - exists n, zs. split; [done|]. split; [done|]. by intros i Hi.
  - rewrite put_tasks_id_Some.
    destruct (controller_updateTask_repo id body (repo s)) as [-> Hc].
    exists n, zs. split; [by apply ids_below_updateTask|]. split; [done|].
    by rewrite created_id_not_201.
  - exists n, zs. split; [done|]. split; [done|]. by intros i Hi.
  - rewrite delete_tasks_id_eq.
    destruct (controller_deleteTask_repo id (repo s)) as [-> Hc].
    destruct (ids_below_deleteTask n zs (Some (Num id)) (repo s) Hinv)
      as [zs' Hinv'].
    exists n, zs'. split; [done|]. split; [done|].
    by rewrite created_id_not_201.
  - rewrite post_tasks_id_complete_eq.
    destruct (controller_markCompleted_repo id (repo s)) as [-> Hc].
    exists n, zs. split; [by apply ids_below_updateTask|]. split; [done|].
    by rewrite created_id_not_201.
  - exists n, zs. split; [done|]. split; [done|]. by intros i Hi.
  - exists (next_after zs), zs. split; [by eapply ids_below_restart|]. done.
Qed.

Lemma start_empty_ids_below : ids_below 1 [] (repo (start empty_disk)).
Proof. split; [done|]. split; [done|]. split; [done|]. split; constructor. Qed.

(** Every state a run reaches from an empty data directory has the
    invariant. *)
Lemma run_ids_below (qs : list request) (s : system) (n : Z) (zs : list Z) :
  ids_below n zs (repo s) → ∃ n' zs', ids_below n' zs' (repo (run qs s).2).
Proof.
  revert s n zs. induction qs as [|q qs IH]; intros s n zs Hinv; [by eauto|].
  rewrite run_cons. simpl.
  destruct (handle_ids_below q s n zs Hinv) as (n' & zs' & Hinv' & _).
  by eapply IH.
Qed.

(** While the process does not restart, the ids it assigns go up from the
    counter. *)
Lemma assigned_from_counter (qs : list request) (s : system) (n : Z)
    (zs : list Z) :
  Forall (λ q, is_restart q = false) qs →
  ids_below n zs (repo s) →
  StronglySorted id_lt (assigned qs s) ∧
  Forall (λ i, ∃ y, i = Some (Num (Int y)) ∧ n ≤ y) (assigned qs s).
Proof.
  intros Hqs. revert s n zs.
  induction Hqs as [|q qs Hq _ IH]; intros s n zs Hinv.
  { split; constructor. }
  rewrite assigned_cons.
  destruct (handle_ids_below q s n zs Hinv) as (n' & zs' & Hinv' & Hle & Hnew).
  specialize (Hle Hq). destruct (IH _ _ _ Hinv') as [Hsorted Hfrom].
  assert (Forall (λ i, ∃ y, i = Some (Num (Int y)) ∧ n ≤ y)
            (assigned qs (handle q s).2)) as Hfrom'.
  { eapply Forall_impl; [exact Hfrom|]. simpl. intros i (y & -> & Hy).
    exists y. split; [done|lia]. }
  destruct (created_id (handle q s).1) as [i|] eqn:Hi; [|done].
  destruct (Hnew i eq_refl) as [-> Hlt]. split.
  - constructor; [done|]. eapply Forall_impl; [exact Hfrom|]. simpl.
    intros i (y & -> & Hy). exists n, y. split; [done|]. split; [done|lia].
  - constructor; [|done]. exists n. split; [done|lia].
Qed.

(** C1, as the code has it. In a process that started on an empty data
    directory and went through any requests and restarts, the ids assigned
    from then on until the next restart increase strictly and are greater
    than every id in the collection; the ids of the collection are always
    distinct integers from 1 on; and a save followed by a new repository
    on the same file keeps the ids and sets the counter to the greatest id
    plus one, or to 1 when the collection is empty, as it is when there is
    no file. *)
Theorem ids_increase_until_restart (qs0 qs1 : list request) :
  Forall (λ q, is_restart q = false) qs1 →
  let s := (run qs0 (start empty_disk)).2 in
  let s' := (run qs1 s).2 in
  StronglySorted id_lt (assigned qs1 s) ∧
  (∀ k i, k ∈ TaskRepository.tasks (repo s) → i ∈ assigned qs1 s →
          id_lt (Task.id k) i) ∧
  (∃ zs,
    Task.id <$> TaskRepository.tasks (repo s') = (λ z, Some (Num (Int z))) <$> zs ∧
    NoDup zs ∧ Forall (λ z, 1 ≤ z) zs ∧
    Task.id <$> TaskRepository.tasks (TaskRepository.new (TaskRepository.save (repo s'))) =
      Task.id <$> TaskRepository.tasks (repo s') ∧
    TaskRepository.nextId (TaskRepository.new (TaskRepository.save (repo s'))) =
      Int (next_after zs)) ∧
  TaskRepository.nextId (TaskRepository.new NoFile) = Int 1 ∧
  TaskRepository.nextId (TaskRepository.new (Json [])) = Int 1.
Proof.
  intros Hqs s s'.
  destruct (run_ids_below qs0 _ _ _ start_empty_ids_below) as (n & zs & Hinv).
  fold s in Hinv.
  destruct (assigned_from_counter qs1 s n zs Hqs Hinv) as [Hsorted Hfrom].
  split; [done|]. split; [|split; [|done]].
  - intros k i Hk Hi. rewrite Forall_forall in Hfrom.
    destruct (Hfrom i Hi) as (y & -> & Hy).
    destruct Hinv as (_ & _ & Hids & Hall & _).
    assert (Task.id k ∈ Task.id <$> TaskRepository.tasks (repo s)) as Hin
      by by apply list_elem_of_fmap_2.
    rewrite Hids in Hin. apply list_elem_of_fmap in Hin as (z & -> & Hz).
    rewrite Forall_forall in Hall. specialize (Hall z Hz).
    exists z, y. split; [done|]. split; [done|lia].
  - destruct (run_ids_below qs1 s n zs Hinv) as (n' & zs' & Hinv').
    fold s' in Hinv'. exists zs'.
    pose proof (ids_below_restart _ _ _ Hinv') as (Hn & _ & Hids' & _).
    destruct Hinv' as (_ & _ & Hids & Hall & Hnd).
    split; [done|]. split; [done|]. split.
    { eapply Forall_impl; [exact Hall|]. simpl. intros; lia. }
    split; [by rewrite Hids', Hids|done].
Qed.

End identifiers.

(** ** The collections a process holds

    Requests whose bodies hold finite numbers only, from an empty data
    directory on, lead only to collections that the file gives back as they
    are. *)

Lemma json_value_or_else (v : option value) (d : value) :
  json_value v → json_value (Some d) → json_value (Some (or_else v d)).
Proof. unfold or_else. destruct v as [x|], (truthy _); simpl; done. Qed.

Lemma addTask_title (data : obj) (r : TaskRepository.t) :
  Task.title (TaskRepository.addTask data r).1 = data !! "title".
Proof. simpl. obj_lookup. rewrite lookup_union_l; [done|by obj_lookup]. Qed.

Lemma addTask_description (data : obj) (r : TaskRepository.t) :
  Task.description (TaskRepository.addTask data r).1 =
    default (Str "") (data !! "description").
Proof. simpl. obj_lookup. rewrite lookup_union_l; [done|by obj_lookup]. Qed.

Lemma addTask_deadline (data : obj) (r : TaskRepository.t) :
  Task.deadline (TaskRepository.addTask data r).1 =
    default Null (data !! "deadline").
Proof. simpl. obj_lookup. rewrite lookup_union_l; [done|by obj_lookup]. Qed.

Lemma create_data_fields (body : obj) :
  create_data body !! "title" = body !! "title" ∧
  create_data body !! "description" =
    Some (or_else (body !! "description") (Str "")) ∧
  create_data body !! "deadline" = Some (or_else (body !! "deadline") Null).
Proof. unfold create_data. by obj_lookup. Qed.

Lemma json_task_addTask (n : Z) (body : obj) (r : TaskRepository.t) :
  TaskRepository.nextId r = Int n → json_obj body →
  json_task (TaskRepository.addTask (create_data body) r).1.
Proof.
  intros Hn Hbody. unfold json_task.
  rewrite (addTask_id _ r (create_data_id body)), addTask_title,
    addTask_description, addTask_deadline, addTask_priority, addTask_status.
  destruct (create_data_fields body) as (-> & -> & ->).
  rewrite create_data_priority, Hn.
  split; [done|]. split; [apply Hbody|].
  split; [by apply json_value_or_else|].
  split; [by apply json_value_or_else|]. split; [|done].
  pose proof (Hbody "priority") as Hp.
  destruct (includes TaskController.allowedPriorities (body !! "priority"));
    [|done].
  by destruct (body !! "priority").
Qed.

Lemma json_task_overlay (updates : obj) (existing : Task.t) :
  json_obj updates → json_task existing → json_task (overlay updates existing).
Proof.
  intros Hup (Hi & Ht & Hd & Hdl & Hp & Hs). unfold json_task.
  destruct (overlay_fields updates existing) as (-> & -> & -> & -> & -> & ->).
  pose proof (Hup "title"). pose proof (Hup "description").
  pose proof (Hup "deadline"). pose proof (Hup "priority").
  pose proof (Hup "status").
  split; [|split; [|split; [|split; [|split]]]]; try done;
    by match goal with
       | |- json_value (from_option _ _ ?o) => destruct o
       | |- json_value (Some (default _ ?o)) => destruct o
       end.
Qed.

Lemma json_obj_copy_defined (k : string) (body updates : obj) :
  json_obj body → json_obj updates → json_obj (copy_defined k body updates).
Proof.
  intros Hbody Hup j. rewrite lookup_copy_defined. case_decide; [|apply Hup].
  pose proof (Hbody k). pose proof (Hup k).
  by destruct (body !! k), (updates !! k).
Qed.

Lemma json_obj_update_data (body : obj) : json_obj body → json_obj (update_data body).
Proof.
  intros Hbody. unfold update_data.
  repeat (apply json_obj_copy_defined; [done|]).
  intros k. by rewrite lookup_empty.
Qed.

Lemma json_tasks_updateTask (id : option value) (updates : obj)
    (r : TaskRepository.t) :
  json_obj updates → Forall json_task (TaskRepository.tasks r) →
  Forall json_task (TaskRepository.tasks (TaskRepository.updateTask id updates r).2).
Proof.
  intros Hup Hjson.
  destruct (repository_updateTask_cases id updates r)
    as [->|(i & existing & Hex & ->)]; [done|]. simpl.
  apply Forall_insert; [done|]. apply json_task_overlay; [done|].
  rewrite Forall_forall in Hjson. apply Hjson. by eapply list_elem_of_lookup_2.
Qed.

Lemma json_tasks_deleteTask (id : option value) (r : TaskRepository.t) :
  Forall json_task (TaskRepository.tasks r) →
  Forall json_task (TaskRepository.tasks (TaskRepository.deleteTask id r).2).
Proof.
  intros Hjson.
  destruct (repository_deleteTask_cases id r) as [->|(i & ->)]; [done|].
  by apply Forall_delete.
Qed.

Section reachable.
Context `{!Engine}.

Lemma json_tasks_restart (r : TaskRepository.t) :
  Forall json_task (TaskRepository.tasks r) →
  Forall json_task
    (TaskRepository.tasks (TaskRepository.new (TaskRepository.save r))).
Proof.
  intros Hjson. rewrite new_save_tasks.
  induction Hjson as [|k ks Hk _ IH]; [constructor|].
  rewrite fmap_cons. constructor; [by rewrite new_JSON_object|done].
Qed.

Lemma handle_json_tasks (q : request) (s : system) (n : Z) (zs : list Z) :
  json_request q → ids_below n zs (repo s) →
  Forall json_task (TaskRepository.tasks (repo s)) →
  Forall json_task (TaskRepository.tasks (repo (handle q s).2)).
Proof.
  intros Hq Hinv Hjson. rewrite handle_repo.
  destruct q as [query|[body|]|id [body|]|id|id| |]; try done.
  - rewrite post_tasks_Some. destruct (truthy (body !! "title")) eqn:Ht.
    + rewrite (createTask_accepted body _ Ht). cbn [snd].
      rewrite addTask_tasks. apply Forall_app. split; [done|].
      constructor; [|done]. destruct Hinv as (Hn & _).
      by eapply json_task_addTask.
    + by rewrite (createTask_rejected body _ Ht).
  - rewrite put_tasks_id_Some.
    destruct (controller_updateTask_repo id body (repo s)) as [-> _].
    apply json_tasks_updateTask; [|done]. by apply json_obj_update_data.
  - rewrite delete_tasks_id_eq.
    destruct (controller_deleteTask_repo id (repo s)) as [-> _].
    by apply json_tasks_deleteTask.
  - rewrite post_tasks_id_complete_eq.
    destruct (controller_markCompleted_repo id (repo s)) as [-> _].
    apply json_tasks_updateTask; [|done].
    intros k. destruct (decide (k = "status")) as [->|Hne].
    + by rewrite lookup_singleton_eq.
    + by rewrite lookup_singleton_ne.
  - by apply json_tasks_restart.
Qed.

Lemma run_json_tasks_from (qs : list request) (s : system) (n : Z) (zs : list Z) :
  Forall json_request qs → ids_below n zs (repo s) →
  Forall json_task (TaskRepository.tasks (repo s)) →
  Forall json_task (TaskRepository.tasks (repo (run qs s).2)).
Proof.
  intros Hqs. revert s n zs.
  induction Hqs as [|q qs Hq _ IH]; intros s n zs Hinv Hjson; [done|].
  rewrite run_cons. cbn [snd].
  destruct (handle_ids_below q s n zs Hinv) as (n' & zs' & Hinv' & _).
  eapply IH; [exact Hinv'|]. by eapply handle_json_tasks.
Qed.

(** Every collection that requests with finite numbers build from an empty
    data directory is one that the file gives back as it is. *)
Lemma run_json_tasks (qs : list request) :
  Forall json_request qs →
  Forall json_task (TaskRepository.tasks (repo (run qs (start empty_disk)).2)).
Proof.
  intros Hqs. eapply run_json_tasks_from; [done|apply start_empty_ids_below|].
  constructor.
Qed.

End reachable.

(** ** Sorting by deadline *)

(** The search stops by itself: fuel beyond the width of the interval
    changes nothing. *)
Lemma binary_search_fuel {A} (cmp : A → A → number) (pivot : A) (a : list A)
    (fuel fuel' left right : nat) :
  (right - left ≤ fuel)%nat → (right - left ≤ fuel')%nat →
  binary_search fuel cmp pivot a left right =
    binary_search fuel' cmp pivot a left right.
Proof.
  revert fuel' left right.
  induction fuel as [|fuel IH]; intros [|fuel'] left right Hfuel Hfuel';
    cbn [binary_search]; try done.
  - destruct (Nat.ltb_spec left right); [lia|done].
  - destruct (Nat.ltb_spec left right); [lia|done].
  - destruct (Nat.ltb_spec left right) as [Hlt|Hge]; [|done].
    pose proof (Nat.div_lt (right - left) 2 ltac:(lia) ltac:(lia)).
    destruct (a !! _); [|done]. destruct (order_lt cmp pivot _);
      apply IH; lia.
Qed.

Lemma binary_insert_Permutation {A} (cmp : A → A → number) (x : A) (l : list A) :
  binary_insert cmp x l ≡ₚ x :: l.
Proof.
  unfold binary_insert. rewrite <- Permutation_middle. by rewrite take_drop.
Qed.

Lemma foldl_binary_insert_Permutation {A} (cmp : A → A → number) (acc l : list A) :
  foldl (λ a pivot, binary_insert cmp pivot a) acc l ≡ₚ acc ++ l.
Proof.
  revert acc. induction l as [|x l IH]; intros acc; simpl.
  - by rewrite app_nil_r.
  - rewrite IH, binary_insert_Permutation. simpl. apply Permutation_middle.
Qed.

Lemma run_rest_app {A} (cmp : A → A → number) (d : bool) (prev : A) (l : list A) :
  (run_rest cmp d prev l).1 ++ (run_rest cmp d prev l).2 = l.
Proof.
  revert prev. induction l as [|x l IH]; intros prev; simpl; [done|].
  destruct (if d then _ else _); [done|].
  specialize (IH x). destruct (run_rest cmp d x l) as [run rest].
  simpl in *. by rewrite IH.
Qed.

Lemma CountAndMakeRun_Permutation {A} (cmp : A → A → number) (l : list A) :
  (CountAndMakeRun cmp l).1 ++ (CountAndMakeRun cmp l).2 ≡ₚ l.
Proof.
  destruct l as [|x [|y l]]; simpl; [done|done|].
  pose proof (run_rest_app cmp (order_lt cmp y x) y l) as Happ.
  destruct (run_rest cmp (order_lt cmp y x) y l) as [run rest]. simpl in *.
  destruct (order_lt cmp y x).
  - rewrite reverse_Permutation. simpl. by rewrite Happ.
  - simpl. by rewrite Happ.
Qed.

Lemma Array_sort_Permutation {A} (cmp : A → A → number) (l : list A) :
  Array_sort cmp l ≡ₚ l.
Proof.
  unfold Array_sort. pose proof (CountAndMakeRun_Permutation cmp l) as Hrun.
  destruct (CountAndMakeRun cmp l) as [run rest].
  by rewrite foldl_binary_insert_Permutation.
Qed.

Lemma StronglySorted_lookup_lt {A} (R : relation A) (l : list A) (i j : nat)
    (a b : A) :
  StronglySorted R l → (i < j)%nat → l !! i = Some a → l !! j = Some b → R a b.
Proof.
  intros Hsorted. revert i j. induction Hsorted as [|x l _ IH Hx]; [done|].
  intros [|i] [|j] Hij Ha Hb; try lia; simplify_eq/=.
  - rewrite Forall_forall in Hx. apply Hx. by eapply list_elem_of_lookup_2.
  - apply (IH i j); [lia|done|done].
Qed.

(** The sort puts a list in the order [le] when the comparator says
    "smaller" only of elements that [le] puts first, and anything else only
    of elements that [le] puts last. *)
Section sorting.
Context {A : Type} (cmp : A → A → number) (le : relation A) (ok : A → Prop).
Context `{!Transitive le}.
Hypothesis before : ∀ x y, ok x → ok y → order_lt cmp x y = true → le x y.
Hypothesis after : ∀ x y, ok x → ok y → order_lt cmp x y = false → le y x.

Lemma binary_search_place (pivot : A) (a : list A) (fuel left right : nat) :
  ok pivot → Forall ok a → StronglySorted le a →
  (left ≤ right ≤ length a)%nat → (right - left ≤ fuel)%nat →
  (∀ k x, (k < left)%nat → a !! k = Some x → le x pivot) →
  (∀ k x, (right ≤ k)%nat → a !! k = Some x → le pivot x) →
  (binary_search fuel cmp pivot a left right ≤ length a)%nat ∧
  (∀ k x, (k < binary_search fuel cmp pivot a left right)%nat →
          a !! k = Some x → le x pivot) ∧
  (∀ k x, (binary_search fuel cmp pivot a left right ≤ k)%nat →
          a !! k = Some x → le pivot x).
Proof.
  intros Hpivot Hok Hsorted. revert left right.
  induction fuel as [|fuel IH]; intros left right Hrange Hfuel Hleft Hright.
  { cbn [binary_search]. assert (left = right) as <- by lia. split; [lia|done]. }
  cbn [binary_search]. destruct (Nat.ltb_spec left right) as [Hlt|Hge].
  2: { assert (left = right) as <- by lia. split; [lia|done]. }
  set (mid := (left + (right - left) / 2)%nat).
  assert (left ≤ mid < right)%nat as Hmid.
  { subst mid. pose proof (Nat.div_lt (right - left) 2 ltac:(lia) ltac:(lia)).
    lia. }
  destruct (lookup_lt_is_Some_2 a mid ltac:(lia)) as [x Hx]. rewrite Hx.
  assert (ok x) as Hokx.
  { rewrite Forall_forall in Hok. apply Hok. by eapply list_elem_of_lookup_2. }
  destruct (order_lt cmp pivot x) eqn:Horder.
  - apply IH; [lia|lia|done|].
    intros k y Hk Hy. destruct (decide (k = mid)) as [->|Hne].
    + simplify_eq. by apply before.
    + etrans; [by apply before|].
      apply (StronglySorted_lookup_lt le a mid k); [done|lia|done|done].
  - apply IH; [lia|lia| |done].
    intros k y Hk Hy. destruct (decide (k = mid)) as [->|Hne].
    + simplify_eq. by apply after.
    + etrans; [|by apply after].
      apply (StronglySorted_lookup_lt le a k mid); [done|lia|done|done].
Qed.

Lemma binary_insert_sorted (pivot : A) (a : list A) :
  ok pivot → Forall ok a → StronglySorted le a →
  StronglySorted le (binary_insert cmp pivot a).
Proof.
  intros Hpivot Hok Hsorted. unfold binary_insert.
  destruct (binary_search_place pivot a (length a) 0 (length a))
    as (Hlen & Hbelow & Habove); try done; try lia.
  { intros k x Hk Hx. apply lookup_lt_Some in Hx. lia. }
  set (p := binary_search (length a) cmp pivot a 0 (length a)) in *.
  rewrite <- (take_drop p a) in Hsorted.
  apply StronglySorted_app in Hsorted as (Hcross & Htake & Hdrop).
  apply StronglySorted_app_2; [|done|].
  - intros x1 x2 Hx1 Hx2. apply elem_of_cons in Hx2 as [->|Hx2].
    + apply elem_of_take in Hx1 as (k & Hk & Hkp). by apply (Hbelow k).
    + by apply Hcross.
  - constructor; [done|]. apply Forall_forall. intros x Hx.
    apply list_elem_of_lookup in Hx as [k Hk]. rewrite lookup_drop in Hk.
    apply (Habove (p + k)%nat); [lia|done].
Qed.

Lemma foldl_binary_insert_sorted (acc l : list A) :
  Forall ok acc → Forall ok l → StronglySorted le acc →
  StronglySorted le (foldl (λ a pivot, binary_insert cmp pivot a) acc l).
Proof.
  revert acc. induction l as [|x l IH]; intros acc Hacc Hl Hsorted; [done|].
  apply Forall_cons in Hl as [Hx Hl]. simpl. apply IH; [|done|].
  - rewrite binary_insert_Permutation. by constructor.
  - by apply binary_insert_sorted.
Qed.

(** The run [CountAndMakeRun] finds goes up, or goes down all the way. *)
Lemma run_rest_ascending (prev : A) (l : list A) :
  ok prev → Forall ok l →
  Sorted le (prev :: (run_rest cmp false prev l).1).
Proof.
  revert prev. induction l as [|x l IH]; intros prev Hprev Hl; simpl.
  { repeat constructor. }
  apply Forall_cons in Hl as [Hx Hl].
  destruct (order_lt cmp x prev) eqn:Horder; simpl; [repeat constructor|].
  specialize (IH x Hx Hl). destruct (run_rest cmp false x l) as [run rest].
  simpl in *. constructor; [done|]. constructor. by apply after.
Qed.

Lemma run_rest_descending (prev : A) (l : list A) :
  ok prev → Forall ok l →
  Sorted (flip le) (prev :: (run_rest cmp true prev l).1).
Proof.
  revert prev. induction l as [|x l IH]; intros prev Hprev Hl; simpl.
  { repeat constructor. }
  apply Forall_cons in Hl as [Hx Hl].
  destruct (order_lt cmp x prev) eqn:Horder; simpl; [|repeat constructor].
  specialize (IH x Hx Hl). destruct (run_rest cmp true x l) as [run rest].
  simpl in *. constructor; [done|]. constructor. by apply before.
Qed.

Lemma CountAndMakeRun_sorted (l : list A) :
  Forall ok l → StronglySorted le (CountAndMakeRun cmp l).1.
Proof.
  intros Hl. apply Sorted_StronglySorted; [done|].
  destruct l as [|x [|y l]]; simpl; [constructor|repeat constructor|].
  apply Forall_cons in Hl as [Hx Hl]. apply Forall_cons in Hl as [Hy Hl].
  destruct (order_lt cmp y x) eqn:Horder.
  - pose proof (run_rest_descending y l Hy Hl) as Hrun.
    destruct (run_rest cmp true y l) as [run rest]. simpl in *.
    assert (Sorted (flip le) (x :: y :: run)) as Hdown.
    { constructor; [done|]. constructor. by apply before. }
    apply Sorted_reverse in Hdown. exact Hdown.
  - pose proof (run_rest_ascending y l Hy Hl) as Hrun.
    destruct (run_rest cmp false y l) as [run rest]. simpl in *.
    constructor; [done|]. constructor. by apply after.
Qed.

Lemma Array_sort_sorted (l : list A) :
  Forall ok l → StronglySorted le (Array_sort cmp l).
Proof.
  intros Hl. unfold Array_sort.
  pose proof (CountAndMakeRun_sorted l Hl) as Hsorted.
  pose proof (CountAndMakeRun_Permutation cmp l) as Hperm.
  destruct (CountAndMakeRun cmp l) as [run rest]. simpl in *.
  rewrite <- Hperm in Hl. apply Forall_app in Hl as [Hrun Hrest].
  by apply foldl_binary_insert_sorted.
Qed.

End sorting.

Section deadlines.

Context `{!Engine}.

#[local] Instance deadline_le_trans : Transitive deadline_le.
Proof.
  intros a b c Hab [Hc|(Hb & Hc & (tb & tc & Htb & Htc & Hbc))]; [by left|].
  destruct Hab as [Hnb|(Ha & _ & (ta & tb' & Hta & Htb' & Hab))]; [done|].
  right. split; [done|]. split; [done|]. exists ta, tc.
  split; [done|]. split; [done|]. rewrite Htb in Htb'. simplify_eq. lia.
Qed.



Lemma getTasks_sortBy_deadline (filter : option value) (r : TaskRepository.t) :
  TaskRepository.getTasks (Some (Str "deadline")) filter r =
    Array_sort TaskRepository.by_deadline (TaskRepository.getTasks None filter r).
Proof. done. Qed.

Lemma getTasks_unsorted_elem_of (filter : option value) (r : TaskRepository.t)
    (k : Task.t) :
  k ∈ TaskRepository.getTasks None filter r → k ∈ TaskRepository.tasks r.
Proof.
  unfold TaskRepository.getTasks. simpl. rewrite !list_elem_of_In.
  repeat (match goal with |- context [if ?b then _ else _] => destruct b end);
    try done; by intros [? _]%filter_In.
Qed.


End deadlines.

(** ** Export *)

Lemma append_cons (c : ascii) (a b : string) :
  String c a +:+ b = String c (a +:+ b).
Proof. done. Qed.

Lemma append_nil_r (a : string) : a +:+ "" = a.
Proof. induction a as [|x a IH]; [done|]. by rewrite append_cons, IH. Qed.










Section export.

Context `{!Engine}.

Lemma getTasks_all (r : TaskRepository.t) :
  TaskRepository.getTasks None None r = TaskRepository.tasks r.
Proof. done. Qed.


End export.

(** * Further properties *)

(** ** Queries *)

Lemma strict_eq_Str (v : value) (s : string) :
  strict_eq (Some v) (Some (Str s)) = true ↔ v = Str s.
Proof.
  split.
  - intros Heq%strict_eq_true. by simplify_eq.
  - intros ->. unfold strict_eq. by apply bool_decide_eq_true.
Qed.

Lemma strict_eq_Str_false (v : value) (s : string) :
  strict_eq (Some v) (Some (Str s)) = false ↔ v ≠ Str s.
Proof.
  rewrite <- strict_eq_Str. by destruct (strict_eq _ _).
Qed.

Lemma elem_of_List_filter {A} (f : A → bool) (l : list A) (x : A) :
  x ∈ List.filter f l ↔ x ∈ l ∧ f x = true.
Proof. by rewrite !list_elem_of_In, filter_In. Qed.

Lemma List_filter_sublist {A} (f : A → bool) (l : list A) :
  List.filter f l `sublist_of` l.
Proof.
  induction l as [|x l IH]; simpl; [constructor|].
  destruct (f x); by constructor.
Qed.

Lemma List_filter_complement {A} (f : A → bool) (l : list A) :
  List.filter f l ++ List.filter (λ x, negb (f x)) l ≡ₚ l.
Proof.
  induction l as [|x l IH]; simpl; [done|].
  destruct (f x); simpl.
  - by rewrite IH.
  - by rewrite <- Permutation_middle, IH.
Qed.

Section queries.
Context `{!Engine}.

(** X1. The filter [completed] lists the tasks whose status is Completed,
    [not-completed] the other tasks and [high-priority] the tasks whose
    priority is High; each list keeps the order of the collection, and the
    completed and the not completed tasks together are the collection. *)
Theorem getTasks_filters (r : TaskRepository.t) :
  (∀ k, k ∈ TaskRepository.getTasks None (Some (Str "completed")) r ↔
        k ∈ TaskRepository.tasks r ∧ Task.status k = Str "Completed") ∧
  (∀ k, k ∈ TaskRepository.getTasks None (Some (Str "not-completed")) r ↔
        k ∈ TaskRepository.tasks r ∧ Task.status k ≠ Str "Completed") ∧
  (∀ k, k ∈ TaskRepository.getTasks None (Some (Str "high-priority")) r ↔
        k ∈ TaskRepository.tasks r ∧ Task.priority k = Str "High") ∧
  TaskRepository.getTasks None (Some (Str "completed")) r ++
    TaskRepository.getTasks None (Some (Str "not-completed")) r ≡ₚ
    TaskRepository.tasks r ∧
  TaskRepository.getTasks None (Some (Str "completed")) r
    `sublist_of` TaskRepository.tasks r ∧
  TaskRepository.getTasks None (Some (Str "not-completed")) r
    `sublist_of` TaskRepository.tasks r ∧
  TaskRepository.getTasks None (Some (Str "high-priority")) r
    `sublist_of` TaskRepository.tasks r.
Proof.
  change (TaskRepository.getTasks None (Some (Str "completed")) r) with
    (List.filter (λ k, strict_eq (Some (Task.status k)) (Some (Str "Completed")))
       (TaskRepository.tasks r)).
  change (TaskRepository.getTasks None (Some (Str "not-completed")) r) with
    (List.filter
       (λ k, negb (strict_eq (Some (Task.status k)) (Some (Str "Completed"))))
       (TaskRepository.tasks r)).
  change (TaskRepository.getTasks None (Some (Str "high-priority")) r) with
    (List.filter (λ k, strict_eq (Some (Task.priority k)) (Some (Str "High")))
       (TaskRepository.tasks r)).
  split; [|split; [|split; [|split; [apply List_filter_complement|]]]].
  - intros k. by rewrite elem_of_List_filter, strict_eq_Str.
  - intros k. by rewrite elem_of_List_filter, negb_true_iff, strict_eq_Str_false.
  - intros k. by rewrite elem_of_List_filter, strict_eq_Str.
  - repeat split; apply List_filter_sublist.
Qed.

Lemma getTasks_unsorted_sublist (filter : option value) (r : TaskRepository.t) :
  TaskRepository.getTasks None filter r `sublist_of` TaskRepository.tasks r.
Proof.
  unfold TaskRepository.getTasks. cbn [truthy].
  repeat (match goal with |- context [if ?b then _ else _] => destruct b end);
    try done; apply List_filter_sublist.
Qed.

Lemma getTasks_sorted_cases (sortBy filter : option value) (r : TaskRepository.t) :
  TaskRepository.getTasks sortBy filter r =
    Array_sort TaskRepository.by_deadline (TaskRepository.getTasks None filter r) ∨
  TaskRepository.getTasks sortBy filter r =
    Array_sort TaskRepository.by_priority (TaskRepository.getTasks None filter r) ∨
  TaskRepository.getTasks sortBy filter r = TaskRepository.getTasks None filter r.
Proof.
  unfold TaskRepository.getTasks at 1 3 5.
  destruct (truthy sortBy); [|by right; right].
  destruct (strict_eq sortBy (Some (Str "deadline"))); [by left|].
  destruct (strict_eq sortBy (Some (Str "priority"))); [by right; left|].
  by right; right.
Qed.

Lemma getTasks_elem_of (sortBy filter : option value) (r : TaskRepository.t)
    (k : Task.t) :
  k ∈ TaskRepository.getTasks sortBy filter r → k ∈ TaskRepository.tasks r.
Proof.
  intros Hk. eapply elem_of_sublist; [|apply (getTasks_unsorted_sublist filter)].
  destruct (getTasks_sorted_cases sortBy filter r) as [Heq | [Heq | Heq]];
    rewrite Heq in Hk; [| |done]; by rewrite Array_sort_Permutation in Hk.
Qed.

(** X2. Whatever the options, the list is a rearrangement of the filtered
    list, and the filtered list is the collection with some tasks left out:
    a query never makes up a task, never repeats one and, without a sort,
    keeps the order of the collection. *)
Theorem getTasks_rearranges (sortBy filter : option value) (r : TaskRepository.t) :
  TaskRepository.getTasks sortBy filter r ≡ₚ TaskRepository.getTasks None filter r ∧
  TaskRepository.getTasks None filter r `sublist_of` TaskRepository.tasks r ∧
  (length (TaskRepository.getTasks sortBy filter r) ≤
     length (TaskRepository.tasks r))%nat.
Proof.
  assert (TaskRepository.getTasks sortBy filter r ≡ₚ
            TaskRepository.getTasks None filter r) as Hperm.
  { destruct (getTasks_sorted_cases sortBy filter r) as [-> | [-> | ->]];
      [apply Array_sort_Permutation|apply Array_sort_Permutation|done]. }
  split; [done|]. split; [apply getTasks_unsorted_sublist|].
  rewrite Hperm. apply sublist_length, getTasks_unsorted_sublist.
Qed.

(** X3. An option that is not one of the values the query knows does
    nothing: with a filter other than [completed], [not-completed] and
    [high-priority] and a sort key other than [deadline] and [priority], the
    list is the collection as it is. *)
Theorem getTasks_unknown_options (sortBy filter : option value)
    (r : TaskRepository.t) :
  filter ≠ Some (Str "completed") → filter ≠ Some (Str "not-completed") →
  filter ≠ Some (Str "high-priority") →
  sortBy ≠ Some (Str "deadline") → sortBy ≠ Some (Str "priority") →
  TaskRepository.getTasks sortBy filter r = TaskRepository.tasks r.
Proof.
  intros Hf1 Hf2 Hf3 Hs1 Hs2. unfold TaskRepository.getTasks.
  rewrite !(strict_eq_ne filter), !(strict_eq_ne sortBy) by done.
  by destruct (truthy filter), (truthy sortBy).
Qed.

End queries.

(** ** Creation *)



(** ** Update, complete, delete *)


Lemma updateTask_ids (id : option value) (updates : obj) (r : TaskRepository.t) :
  Task.id <$> TaskRepository.tasks (TaskRepository.updateTask id updates r).2 =
    Task.id <$> TaskRepository.tasks r.
Proof.
  destruct (repository_updateTask_cases id updates r)
    as [-> | (i & existing & Hex & ->)]; [done|].
  simpl. rewrite list_fmap_insert.
  destruct (overlay_fields updates existing) as (-> & _).
  apply list_insert_id. by rewrite list_lookup_fmap, Hex.
Qed.

(** X6. An update or a completion, found or not, never adds or removes a
    task, never changes an id, not even when the updates carry one, and
    never touches the counter. *)
Theorem updateTask_keeps_ids (id : option value) (updates : obj)
    (r : TaskRepository.t) :
  Task.id <$> TaskRepository.tasks (TaskRepository.updateTask id updates r).2 =
    Task.id <$> TaskRepository.tasks r ∧
  length (TaskRepository.tasks (TaskRepository.updateTask id updates r).2) =
    length (TaskRepository.tasks r) ∧
  TaskRepository.nextId (TaskRepository.updateTask id updates r).2 =
    TaskRepository.nextId r ∧
  Task.id <$> TaskRepository.tasks (TaskRepository.markCompleted id r).2 =
    Task.id <$> TaskRepository.tasks r.
Proof.
  split; [apply updateTask_ids|]. split; [|split; [|apply updateTask_ids]].
  - rewrite <- (length_fmap Task.id), updateTask_ids. apply length_fmap.
  - by destruct (repository_updateTask_cases id updates r)
      as [-> | (i & existing & Hex & ->)].
Qed.





Lemma unknown_id_delete (z : Z) (r : TaskRepository.t) (i : nat)
    (existing : Task.t) :
  NoDup (Task.id <$> TaskRepository.tasks r) →
  TaskRepository.tasks r !! i = Some existing →
  Task.id existing = Some (Num (Int z)) →
  Forall (λ k, Task.id k ≠ Some (Num (Int z))) (delete i (TaskRepository.tasks r)).
Proof.
  intros Hnd Hex Hid. apply Forall_forall. intros k Hk Hkid.
  apply list_elem_of_lookup in Hk as [j Hj].
  assert (∃ j', j' ≠ i ∧ TaskRepository.tasks r !! j' = Some k) as (j' & Hne & Hj').
  { destruct (decide (j < i)%nat).
    - exists j. split; [lia|]. by rewrite list_lookup_delete_lt in Hj.
    - exists (S j). split; [lia|]. by rewrite list_lookup_delete_ge in Hj by lia. }
  apply Hne. eapply (NoDup_lookup _ j' i); [exact Hnd| |].
  - by rewrite list_lookup_fmap, Hj'.
  - rewrite list_lookup_fmap, Hex. simpl. congruence.
Qed.

Section deletion.
Context `{!Engine}.

(** X8. In a collection with distinct ids, a deleted task is gone: after
    the deletion of an existing id no task has that id, no query lists it, a
    second deletion and an update of that id answer not found, and every
    other task is still there. *)
Theorem deleteTask_removes (z : Z) (r : TaskRepository.t) :
  NoDup (Task.id <$> TaskRepository.tasks r) → has_task z r →
  ∃ r',
    TaskRepository.deleteTask (Some (Num (Int z))) r = (true, r') ∧
    unknown_id (Int z) r' ∧
    (∀ sortBy filter k, k ∈ TaskRepository.getTasks sortBy filter r' →
                        Task.id k ≠ Some (Num (Int z))) ∧
    TaskRepository.deleteTask (Some (Num (Int z))) r' = (false, r') ∧
    (∀ updates,
       TaskRepository.updateTask (Some (Num (Int z))) updates r' = (None, r')) ∧
    (∀ k, k ∈ TaskRepository.tasks r → Task.id k ≠ Some (Num (Int z)) →
          k ∈ TaskRepository.tasks r').
Proof.
  intros Hnd Hhas.
  destruct (repository_deleteTask_known z r Hhas)
    as (i & existing & Hex & Hid & _ & Hdel).
  eexists. split; [exact Hdel|].
  pose proof (unknown_id_delete z r i existing Hnd Hex Hid) as Hun.
  set (r' := {| TaskRepository.tasks := _ |}).
  assert (unknown_id (Int z) r') as Hun' by exact Hun.
  pose proof (findIndex_unknown (Int z) r' Hun') as Hfind.
  split; [done|]. split; [|split; [|split]].
  - intros sortBy filter k Hk. unfold unknown_id in Hun'.
    rewrite Forall_forall in Hun'. by eapply Hun', getTasks_elem_of.
  - unfold TaskRepository.deleteTask. by rewrite Hfind.
  - intros updates. unfold TaskRepository.updateTask. by rewrite Hfind.
  - intros k Hk Hne. apply list_elem_of_lookup in Hk as [j Hj].
    assert (j ≠ i) as Hji by (intros ->; congruence).
    apply list_elem_of_lookup. subst r'. cbn [TaskRepository.tasks].
    destruct (decide (j < i)%nat).
    + exists j. by rewrite list_lookup_delete_lt.
    + exists (j - 1)%nat. rewrite list_lookup_delete_ge by lia.
      by replace (S (j - 1)) with j by lia.
Qed.

End deletion.

(** ** Task.js *)

Lemma props_foreign (k : Task.t) (j : string) :
  j ∉ task_keys → Task.props k !! j = None.
Proof.
  intros Hj. unfold task_keys in Hj. unfold Task.props.
  rewrite !lookup_set_prop_ne, !lookup_insert_ne, lookup_empty; try done;
    intros <-; apply Hj; repeat constructor.
Qed.

(** X9. The constructor and [toJSON] undo each other: a task made from the
    object of a task is that task. Made from any object, a task has the six
    properties only, so that a property of another name is dropped, and a
    missing description, deadline, priority or status has its default. *)
Theorem Task_new_toJSON (k : Task.t) (o : obj) :
  Task.new (Task.toJSON k) = k ∧
  Task.toJSON (Task.new (Task.toJSON (Task.new o))) = Task.toJSON (Task.new o) ∧
  (∀ j, j ∉ task_keys → Task.toJSON (Task.new o) !! j = None) ∧
  (o !! "description" = None → Task.description (Task.new o) = Str "") ∧
  (o !! "deadline" = None → Task.deadline (Task.new o) = Null) ∧
  (o !! "priority" = None → Task.priority (Task.new o) = Str "Low") ∧
  (o !! "status" = None → Task.status (Task.new o) = Str "ToDo").
Proof.
  split; [apply new_props|]. split; [unfold Task.toJSON; by rewrite new_props|].
  split; [intros j Hj; by apply props_foreign|].
  repeat split; intros Hnone; simpl; by rewrite Hnone.
Qed.

(** ** Loading *)

Lemma foldl_Math_max_NaN (ks : list Task.t) `{!Engine} :
  foldl (λ acc k, Math_max acc (ToNumber (Task.id k))) NaN ks = NaN.
Proof. induction ks as [|k ks IH]; [done|]. exact IH. Qed.

Lemma foldl_Math_max_undefined `{!Engine} (ks : list Task.t) (acc : number) :
  (∃ k, k ∈ ks ∧ Task.id k = None) →
  foldl (λ acc k, Math_max acc (ToNumber (Task.id k))) acc ks = NaN.
Proof.
  intros (k & Hk & Hid). revert acc.
  induction ks as [|k' ks IH]; intros acc; [by apply elem_of_nil in Hk|].
  cbn [foldl]. apply elem_of_cons in Hk as [<-|Hk]; [|by apply IH].
  rewrite Hid. cbn [ToNumber].
  replace (Math_max acc NaN) with NaN by (by destruct acc as [| |[|]]).
  apply foldl_Math_max_NaN.
Qed.

Section loading.
Context `{!Engine}.

(** X10. After the load of an array whose ids are safe integers, whatever
    they are (gaps, repetitions, any order), the counter is above every id
    of the file and at most [2^53], so the first task created afterwards
    has an id that no loaded task has. *)
Theorem load_then_create_is_fresh (data : list obj) (zs : list Z) (body : obj) :
  (λ o : obj, o !! "id") <$> data = (λ z, Some (Num (Int z))) <$> zs →
  Forall safe_integer zs →
  truthy (body !! "title") = true →
  ∃ n k r',
    TaskRepository.nextId (TaskRepository.new (Json data)) = Int n ∧
    Forall (λ z, z < n) zs ∧ 1 ≤ n ≤ 2 ^ 53 ∧
    TaskController.createTask body (TaskRepository.new (Json data)) =
      (respond 201 (Object (Task.toJSON k)), r') ∧
    Task.id k = Some (Num (Int n)) ∧
    ∀ k', k' ∈ TaskRepository.tasks (TaskRepository.new (Json data)) →
          Task.id k' ≠ Task.id k.
Proof.
  intros Hids Hsafe Htitle. pose proof (new_Json_nextId data zs Hids) as Hn.
  exists (max_id zs + 1). eexists _, _. split; [exact Hn|].
  assert (Forall (λ z, z < max_id zs + 1) zs) as Hlt.
  { eapply Forall_impl; [apply max_id_upper|]. simpl. intros; lia. }
  split; [done|]. split.
  { assert (0 ≤ max_id zs < 2 ^ 53); [|lia].
    clear -Hsafe. unfold safe_integer in Hsafe.
    induction Hsafe as [|z zs Hz _ IH]; simpl; lia. }
  split; [by apply createTask_accepted|].
  rewrite (addTask_id _ _ (create_data_id body)), Hn. split; [done|].
  intros k' Hk' Heq.
  assert (Task.id k' ∈ (λ z, Some (Num (Int z))) <$> zs) as Hin.
  { rewrite <- Hids. cbn [TaskRepository.new TaskRepository.load
      TaskRepository.tasks] in Hk'.
    apply list_elem_of_fmap in Hk' as (o & -> & Ho).
    apply list_elem_of_fmap. by exists o. }
  apply list_elem_of_fmap in Hin as (z & Hz & Hzin).
  rewrite Forall_forall in Hlt. specialize (Hlt z Hzin).
  rewrite Hz in Heq. simplify_eq. lia.
Qed.

(** X11. One element without an id in the file spoils the counter: it is
    NaN after the load, every task created afterwards has the id NaN and
    leaves the counter at NaN, and no update, completion or deletion finds
    such a task, since NaN is not equal to any id a request can name. *)
Theorem load_without_id_spoils_counter (data : list obj) (body : obj) :
  (∃ o, o ∈ data ∧ o !! "id" = None) →
  truthy (body !! "title") = true →
  TaskRepository.nextId (TaskRepository.new (Json data)) = NaN ∧
  ∃ k r',
    TaskController.createTask body (TaskRepository.new (Json data)) =
      (respond 201 (Object (Task.toJSON k)), r') ∧
    Task.id k = Some (Num NaN) ∧
    TaskRepository.nextId r' = NaN ∧
    ∀ id, strict_eq (Task.id k) id = false.
Proof.
  intros (o & Ho & Hid) Htitle.
  assert (TaskRepository.nextId (TaskRepository.new (Json data)) = NaN) as Hn.
  { cbn [TaskRepository.new TaskRepository.load TaskRepository.nextId].
    rewrite foldl_Math_max_undefined; [done|].
    exists (Task.new o). split; [by apply list_elem_of_fmap_2|done]. }
  split; [done|]. eexists _, _. split; [by apply createTask_accepted|].
  rewrite (addTask_id _ _ (create_data_id body)), Hn.
  split; [done|]. split.
  { cbn [TaskRepository.addTask snd TaskRepository.nextId]. by rewrite Hn. }
  by intros [[| |[| |[|]]|]|].
Qed.

Lemma json_value_JSON_value (v : option value) : json_value (JSON_value <$> v).
Proof. unfold json_value. by destruct v as [[| |[| |[|]]|]|]. Qed.

Lemma new_save_json_tasks (r : TaskRepository.t) :
  Forall json_task
    (TaskRepository.tasks (TaskRepository.new (TaskRepository.save r))).
Proof.
  rewrite new_save_tasks. apply Forall_fmap, Forall_true. intros k.
  change (json_task (Task.new (JSON_object (Task.toJSON k)))).
  unfold json_task, Task.new, JSON_object, Task.toJSON.
  cbn [Task.id Task.title Task.description Task.deadline Task.priority
    Task.status].
  rewrite !lookup_fmap, props_id, props_title, props_description,
    props_deadline, props_priority, props_status.
  split; [apply json_value_JSON_value|]. split; [apply json_value_JSON_value|].
  repeat split; apply (json_value_JSON_value (Some _)).
Qed.

Lemma repository_eq (r1 r2 : TaskRepository.t) :
  TaskRepository.tasks r1 = TaskRepository.tasks r2 →
  TaskRepository.nextId r1 = TaskRepository.nextId r2 → r1 = r2.
Proof. destruct r1, r2. simpl. by intros -> ->. Qed.

Lemma new_save_json (r : TaskRepository.t) :
  Forall json_task (TaskRepository.tasks r) →
  TaskRepository.tasks (TaskRepository.new (TaskRepository.save r)) =
    TaskRepository.tasks r.
Proof.
  intros Hjson. rewrite new_save_tasks.
  induction Hjson as [|k ks Hk _ IH]; [done|].
  rewrite fmap_cons, IH. by rewrite new_JSON_object.
Qed.

(** X12. Saving and loading is idempotent, for every repository: what a
    new repository reads from a saved file, it reads again, tasks and
    counter, after it has saved in turn. *)
Theorem save_load_idempotent (r : TaskRepository.t) :
  TaskRepository.new (TaskRepository.save
    (TaskRepository.new (TaskRepository.save r))) =
  TaskRepository.new (TaskRepository.save r).
Proof.
  assert (TaskRepository.tasks
            (TaskRepository.new (TaskRepository.save
               (TaskRepository.new (TaskRepository.save r)))) =
          TaskRepository.tasks (TaskRepository.new (TaskRepository.save r)))
    as Htasks by apply new_save_json, new_save_json_tasks.
  apply repository_eq; [done|].
  change (TaskRepository.nextId (TaskRepository.new (TaskRepository.save
            (TaskRepository.new (TaskRepository.save r)))) =
          num_add (foldl (λ acc k, Math_max acc (ToNumber (Task.id k))) (Int 0)
            (TaskRepository.tasks (TaskRepository.new (TaskRepository.save r))))
            (Int 1)).
  by rewrite <- Htasks.
Qed.

(** X13. A restart does not show in the lists when the numbers of the
    request bodies are finite: after any such requests on an empty data
    directory, every query gets the same answer before and after a restart
    of the process. (A body can hold an infinity, the number read from
    [1e999], and the file gives null back for it.) *)
Theorem restart_keeps_lists (qs : list request) (query : obj) :
  Forall json_request qs →
  let s := (run qs (start empty_disk)).2 in
  (handle (GET_tasks query) (handle Restart s).2).1 =
    (handle (GET_tasks query) s).1.
Proof.
  intros Hqs s. cbn [handle fst snd start repo tasks_json].
  unfold server.get_tasks. do 3 f_equal.
  pose proof (new_save_json (repo s) (run_json_tasks qs Hqs)) as Htasks.
  unfold TaskRepository.getTasks. fold s in Htasks. by rewrite Htasks.
Qed.

End loading.

(** ** The sort is stable *)

(** Elements that the comparator does not tell apart, all those that [P]
    selects, keep their order when the comparator agrees with a strict weak
    order [lt]. *)
Section stable_sorting.
Context {A : Type} (cmp : A → A → number) (lt : relation A) (ok : A → Prop)
  (P : A → bool).
Hypothesis lt_asym : ∀ x y, lt x y → ¬ lt y x.
Hypothesis lt_trans : ∀ x y z, lt x y → lt y z → lt x z.
Hypothesis ge_trans : ∀ x y z, ¬ lt y x → ¬ lt z y → ¬ lt z x.
Hypothesis lt_ge_trans : ∀ x y z, lt x y → ¬ lt z y → lt x z.
Hypothesis cmp_lt : ∀ x y, ok x → ok y → order_lt cmp x y = true → lt x y.
Hypothesis cmp_ge : ∀ x y, ok x → ok y → order_lt cmp x y = false → ¬ lt x y.
Hypothesis tier : ∀ x y, P x = true → P y = true → ¬ lt x y.

Lemma ge_Transitive : Transitive (λ x y : A, ¬ lt y x).
Proof. intros u v w Huv Hvw. by apply (ge_trans u v w). Qed.

Lemma binary_search_strict (pivot : A) (a : list A) (fuel left right : nat) :
  ok pivot → Forall ok a → StronglySorted (λ x y, ¬ lt y x) a →
  (left ≤ right ≤ length a)%nat → (right - left ≤ fuel)%nat →
  (∀ k x, (k < left)%nat → a !! k = Some x → ¬ lt pivot x) →
  (∀ k x, (right ≤ k)%nat → a !! k = Some x → lt pivot x) →
  (∀ k x, (k < binary_search fuel cmp pivot a left right)%nat →
          a !! k = Some x → ¬ lt pivot x) ∧
  (∀ k x, (binary_search fuel cmp pivot a left right ≤ k)%nat →
          a !! k = Some x → lt pivot x).
Proof.
  intros Hpivot Hok Hsorted. revert left right.
  induction fuel as [|fuel IH]; intros left right Hrange Hfuel Hleft Hright.
  { cbn [binary_search]. by assert (left = right) as <- by lia. }
  cbn [binary_search]. destruct (Nat.ltb_spec left right) as [Hlt|Hge].
  2: { by assert (left = right) as <- by lia. }
  set (mid := (left + (right - left) / 2)%nat).
  assert (left ≤ mid < right)%nat as Hmid.
  { subst mid. pose proof (Nat.div_lt (right - left) 2 ltac:(lia) ltac:(lia)).
    lia. }
  destruct (lookup_lt_is_Some_2 a mid ltac:(lia)) as [x Hx]. rewrite Hx.
  assert (ok x) as Hokx.
  { rewrite Forall_forall in Hok. apply Hok. by eapply list_elem_of_lookup_2. }
  destruct (order_lt cmp pivot x) eqn:Horder.
  - apply IH; [lia|lia|done|].
    intros k y Hk Hy. destruct (decide (k = mid)) as [->|Hne].
    + simplify_eq. by apply cmp_lt.
    + apply (lt_ge_trans pivot x y); [by apply cmp_lt|].
      apply (StronglySorted_lookup_lt (λ u v, ¬ lt v u) a mid k); [done|lia|done|done].
  - apply IH; [lia|lia| |done].
    intros k y Hk Hy. destruct (decide (k = mid)) as [->|Hne].
    + simplify_eq. by apply cmp_ge.
    + apply (ge_trans y x pivot); [|by apply cmp_ge].
      apply (StronglySorted_lookup_lt (λ u v, ¬ lt v u) a k mid); [done|lia|done|done].
Qed.

Lemma List_filter_none (l : list A) :
  Forall (λ x, P x = false) l → List.filter P l = [].
Proof. induction 1 as [|x l Hx _ IH]; [done|]. simpl. by rewrite Hx. Qed.

Lemma binary_insert_filter (pivot : A) (a : list A) :
  ok pivot → Forall ok a → StronglySorted (λ x y, ¬ lt y x) a →
  List.filter P (binary_insert cmp pivot a) = List.filter P (a ++ [pivot]).
Proof.
  intros Hpivot Hok Hsorted. unfold binary_insert.
  destruct (binary_search_strict pivot a (length a) 0 (length a))
    as (_ & Habove); try done; try lia.
  { intros k x Hk Hx. apply lookup_lt_Some in Hx. lia. }
  set (p := binary_search (length a) cmp pivot a 0 (length a)) in *.
  rewrite <- (take_drop p a) at 3. rewrite !List.filter_app. simpl.
  destruct (P pivot) eqn:HP; [|by rewrite !app_nil_r].
  rewrite (List_filter_none (drop p a)); [by rewrite app_nil_r|].
  apply Forall_forall. intros x Hx.
  apply list_elem_of_lookup in Hx as [k Hk]. rewrite lookup_drop in Hk.
  destruct (P x) eqn:HPx; [|done].
  destruct (tier pivot x HP HPx). apply (Habove (p + k)%nat); [lia|done].
Qed.

Lemma foldl_binary_insert_filter (acc l : list A) :
  Forall ok acc → Forall ok l → StronglySorted (λ x y, ¬ lt y x) acc →
  List.filter P (foldl (λ a pivot, binary_insert cmp pivot a) acc l) =
    List.filter P (acc ++ l).
Proof.
  revert acc. induction l as [|x l IH]; intros acc Hacc Hl Hsorted.
  { by rewrite app_nil_r. }
  apply Forall_cons in Hl as [Hx Hl]. cbn [foldl]. rewrite IH; [| |done|].
  - rewrite List.filter_app, binary_insert_filter by done.
    by rewrite <- List.filter_app, <- app_assoc.
  - rewrite binary_insert_Permutation. by constructor.
  - pose proof ge_Transitive.
    apply (binary_insert_sorted cmp (λ x y, ¬ lt y x) ok); try done.
    intros u v Hu Hv Hlt. by apply lt_asym, cmp_lt.
Qed.

Lemma run_rest_strictly_descending (prev : A) (l : list A) :
  ok prev → Forall ok l →
  Sorted (flip lt) (prev :: (run_rest cmp true prev l).1).
Proof.
  revert prev. induction l as [|x l IH]; intros prev Hprev Hl; simpl.
  { repeat constructor. }
  apply Forall_cons in Hl as [Hx Hl].
  destruct (order_lt cmp x prev) eqn:Horder; simpl; [|repeat constructor].
  specialize (IH x Hx Hl). destruct (run_rest cmp true x l) as [run rest].
  simpl in *. constructor; [done|]. constructor. by apply cmp_lt.
Qed.

Lemma filter_descending (l : list A) :
  StronglySorted (flip lt) l → (length (List.filter P l) ≤ 1)%nat.
Proof.
  induction 1 as [|x l _ IH Hx]; simpl; [lia|].
  destruct (P x) eqn:HP; [|done].
  rewrite List_filter_none; [simpl; lia|].
  eapply Forall_impl; [exact Hx|]. intros y Hy. simpl in Hy.
  destruct (P y) eqn:HPy; [|done]. by destruct (tier y x).
Qed.

Lemma filter_reverse_short (l : list A) :
  (length (List.filter P l) ≤ 1)%nat →
  List.filter P (reverse l) = List.filter P l.
Proof.
  induction l as [|x l IH]; [done|]. rewrite reverse_cons, List.filter_app.
  simpl. destruct (P x) eqn:HP; simpl; intros Hlen.
  - destruct (List.filter P l) eqn:Hl; [|simpl in Hlen; lia].
    rewrite IH by (simpl; lia). done.
  - rewrite app_nil_r. by apply IH.
Qed.

Lemma CountAndMakeRun_filter (l : list A) :
  Forall ok l →
  List.filter P ((CountAndMakeRun cmp l).1 ++ (CountAndMakeRun cmp l).2) =
    List.filter P l.
Proof.
  intros Hl. destruct l as [|x [|y l]]; simpl; [done|done|].
  apply Forall_cons in Hl as [Hx Hl]. apply Forall_cons in Hl as [Hy Hl].
  pose proof (run_rest_app cmp (order_lt cmp y x) y l) as Happ.
  destruct (order_lt cmp y x) eqn:Horder.
  - pose proof (run_rest_strictly_descending y l Hy Hl) as Hrun.
    destruct (run_rest cmp true y l) as [run rest]. simpl in *.
    rewrite List.filter_app, filter_reverse_short.
    + rewrite <- List.filter_app. simpl. by rewrite Happ.
    + apply filter_descending, Sorted_StronglySorted.
      * intros u v w Huv Hvw. by apply (lt_trans w v u).
      * constructor; [done|]. constructor. by apply cmp_lt.
  - destruct (run_rest cmp false y l) as [run rest]. simpl in *.
    by rewrite Happ.
Qed.

Lemma Array_sort_stable (l : list A) :
  Forall ok l → List.filter P (Array_sort cmp l) = List.filter P l.
Proof.
  intros Hl. unfold Array_sort.
  pose proof (CountAndMakeRun_filter l Hl) as Hfilter.
  pose proof (CountAndMakeRun_Permutation cmp l) as Hperm.
  pose proof ge_Transitive.
  assert (StronglySorted (λ x y, ¬ lt y x) (CountAndMakeRun cmp l).1)
    as Hsorted.
  { apply (CountAndMakeRun_sorted cmp (λ x y, ¬ lt y x) ok); [| |done].
    - intros u v Hu Hv Hlt. by apply lt_asym, cmp_lt.
    - intros u v Hu Hv Hge. by apply cmp_ge. }
  destruct (CountAndMakeRun cmp l) as [run rest]. simpl in *.
  rewrite <- Hperm in Hl. apply Forall_app in Hl as [Hrun Hrest].
  by rewrite foldl_binary_insert_filter.
Qed.

End stable_sorting.

(** ** Sorting by priority *)

Lemma priority_valid_cases (k : Task.t) :
  priority_valid k →
  Task.priority k = Str "High" ∨ Task.priority k = Str "Medium" ∨
  Task.priority k = Str "Low".
Proof.
  unfold priority_valid, TaskController.allowedPriorities.
  rewrite !elem_of_cons, elem_of_nil. tauto.
Qed.

Lemma by_priority_rank (x y : Task.t) :
  priority_valid x → priority_valid y →
  order_lt TaskRepository.by_priority x y =
    bool_decide (priority_rank (Task.priority x) < priority_rank (Task.priority y)).
Proof.
  intros Hx%priority_valid_cases Hy%priority_valid_cases.
  unfold order_lt, TaskRepository.by_priority.
  destruct Hx as [-> | [-> | ->]], Hy as [-> | [-> | ->]]; done.
Qed.

Lemma getTasks_sortBy_priority `{!Engine} (filter : option value)
    (r : TaskRepository.t) :
  TaskRepository.getTasks (Some (Str "priority")) filter r =
    Array_sort TaskRepository.by_priority (TaskRepository.getTasks None filter r).
Proof. done. Qed.

Section priorities.
Context `{!Engine}.

(** X14. On a collection in which every priority is one of High, Medium
    and Low, the list sorted by priority is a permutation of the filtered
    list, goes from High over Medium to Low, and keeps the tasks of each
    priority in the order they are stored in. *)
Theorem getTasks_sorted_by_priority (filter : option value)
    (r : TaskRepository.t) :
  Forall priority_valid (TaskRepository.tasks r) →
  TaskRepository.getTasks (Some (Str "priority")) filter r ≡ₚ
    TaskRepository.getTasks None filter r ∧
  StronglySorted priority_le
    (TaskRepository.getTasks (Some (Str "priority")) filter r) ∧
  ∀ p, List.filter (has_priority p)
         (TaskRepository.getTasks (Some (Str "priority")) filter r) =
       List.filter (has_priority p) (TaskRepository.getTasks None filter r).
Proof.
  intros Hvalid. rewrite getTasks_sortBy_priority.
  assert (Forall priority_valid (TaskRepository.getTasks None filter r))
    as Hok.
  { rewrite Forall_forall in Hvalid. apply Forall_forall. intros k Hk.
    by apply Hvalid, (getTasks_unsorted_elem_of filter). }
  split; [apply Array_sort_Permutation|]. split.
  - assert (Transitive priority_le) by (unfold priority_le; intros ???; lia).
    apply (Array_sort_sorted _ _ priority_valid); [| |done].
    + intros x y Hx Hy. rewrite by_priority_rank by done.
      intros ?%bool_decide_eq_true. unfold priority_le. lia.
    + intros x y Hx Hy. rewrite by_priority_rank by done.
      intros ?%bool_decide_eq_false. unfold priority_le. lia.
  - intros p.
    apply (Array_sort_stable _
             (λ a b, priority_rank (Task.priority a) <
                     priority_rank (Task.priority b)) priority_valid);
      try (intros; lia); [| | |done].
    + intros x y Hx Hy. rewrite by_priority_rank by done.
      by intros ?%bool_decide_eq_true.
    + intros x y Hx Hy. rewrite by_priority_rank by done.
      by intros ?%bool_decide_eq_false.
    + unfold has_priority. intros x y ->%bool_decide_eq_true
        ->%bool_decide_eq_true. lia.
Qed.

End priorities.

Lemma lex_lt_asym (p q : Z * Z) : lex_lt p q → ¬ lex_lt q p.
Proof. unfold lex_lt. lia. Qed.

Lemma lex_lt_trans (p q s : Z * Z) : lex_lt p q → lex_lt q s → lex_lt p s.
Proof. unfold lex_lt. lia. Qed.

Lemma lex_ge_trans (p q s : Z * Z) : ¬ lex_lt q p → ¬ lex_lt s q → ¬ lex_lt s p.
Proof. unfold lex_lt. lia. Qed.

Lemma lex_lt_ge_trans (p q s : Z * Z) : lex_lt p q → ¬ lex_lt s q → lex_lt p s.
Proof. unfold lex_lt. lia. Qed.

Section deadline_stability.
Context `{!Engine}.

Lemma by_deadline_key (x y : Task.t) :
  deadline_valid x → deadline_valid y →
  order_lt TaskRepository.by_deadline x y = true ↔
  lex_lt (deadline_key x) (deadline_key y).
Proof.
  unfold deadline_valid, has_deadline, order_lt, TaskRepository.by_deadline,
    deadline_key, lex_lt.
  intros Hx Hy. rewrite Z.ltb_lt.
  destruct (truthy (Some (Task.deadline x))) eqn:Htx,
    (truthy (Some (Task.deadline y))) eqn:Hty; cbn [negb].
  - destruct (Hx eq_refl) as [tx ->], (Hy eq_refl) as [ty ->]. cbn. lia.
  - destruct (Hx eq_refl) as [tx ->]. cbn. lia.
  - destruct (Hy eq_refl) as [ty ->]. cbn. lia.
  - cbn. lia.
Qed.

(** X15. The sort by deadline is stable on a collection in which every
    deadline that is not null (or empty) is a valid date: the tasks without
    a deadline keep the order they are stored in, and so do the tasks whose
    deadlines are the same time. *)
Theorem getTasks_deadline_sort_stable (filter : option value)
    (r : TaskRepository.t) :
  Forall deadline_valid (TaskRepository.tasks r) →
  List.filter no_deadline
      (TaskRepository.getTasks (Some (Str "deadline")) filter r) =
    List.filter no_deadline (TaskRepository.getTasks None filter r) ∧
  ∀ t, List.filter (deadline_at t)
         (TaskRepository.getTasks (Some (Str "deadline")) filter r) =
       List.filter (deadline_at t) (TaskRepository.getTasks None filter r).
Proof.
  intros Hvalid. rewrite getTasks_sortBy_deadline.
  assert (Forall deadline_valid (TaskRepository.getTasks None filter r))
    as Hok.
  { rewrite Forall_forall in Hvalid. apply Forall_forall. intros k Hk.
    by apply Hvalid, (getTasks_unsorted_elem_of filter). }
  assert (∀ P : Task.t → bool,
    (∀ x y, P x = true → P y = true →
            ¬ lex_lt (deadline_key x) (deadline_key y)) →
    List.filter P (Array_sort TaskRepository.by_deadline
                     (TaskRepository.getTasks None filter r)) =
    List.filter P (TaskRepository.getTasks None filter r)) as Hstable.
  { intros P Htier.
    apply (Array_sort_stable _
             (λ a b, lex_lt (deadline_key a) (deadline_key b)) deadline_valid);
      try done.
    - intros x y. apply lex_lt_asym.
    - intros x y z. apply lex_lt_trans.
    - intros x y z. apply lex_ge_trans.
    - intros x y z. apply lex_lt_ge_trans.
    - intros x y Hx Hy. by rewrite by_deadline_key.
    - intros x y Hx Hy Hge. rewrite <- by_deadline_key by done.
      by rewrite Hge. }
  split.
  - apply Hstable. unfold no_deadline, deadline_key, lex_lt.
    intros x y ->%negb_true_iff ->%negb_true_iff. cbn. lia.
  - intros t. apply Hstable. unfold deadline_at, deadline_key, lex_lt.
    intros x y [-> ->%bool_decide_eq_true]%andb_true_iff
      [-> ->%bool_decide_eq_true]%andb_true_iff. cbn. lia.
Qed.

End deadline_stability.

(** ** The request handler *)

Lemma strip_prefix_tasks (s : string) :
  strip_prefix "/tasks/" ("/tasks/" +:+ s) = Some s.
Proof. done. Qed.

Lemma span_digits_all (ds : string) :
  all_digits ds = true → span_digits ds = (ds, "").
Proof.
  induction ds as [|c ds IH]; [done|]. cbn [all_digits span_digits].
  intros [-> Hds]%andb_true_iff. by rewrite (IH Hds).
Qed.

Lemma span_digits_slash (ds rest : string) :
  all_digits ds = true →
  span_digits (ds +:+ String "/" rest) = (ds, String "/" rest).
Proof.
  induction ds as [|c ds IH]; [done|]. rewrite append_cons.
  cbn [all_digits span_digits].
  intros [-> Hds]%andb_true_iff. by rewrite (IH Hds).
Qed.

Lemma eqb_nonempty (ds : string) : ds ≠ "" → String.eqb ds "" = false.
Proof. by destruct ds. Qed.

Lemma idMatch_id (ds : string) :
  id_digits ds → idMatch ("/tasks/" +:+ ds) = Some ds.
Proof.
  intros [Hne Hds]. unfold idMatch.
  rewrite strip_prefix_tasks, span_digits_all by done.
  by rewrite eqb_nonempty.
Qed.

Lemma idMatch_complete (ds : string) :
  id_digits ds → idMatch ("/tasks/" +:+ ds +:+ "/complete") = Some ds.
Proof.
  intros [Hne Hds]. unfold idMatch.
  rewrite strip_prefix_tasks, span_digits_slash by done.
  by rewrite eqb_nonempty.
Qed.

Lemma completeMatch_id (ds : string) :
  id_digits ds → completeMatch ("/tasks/" +:+ ds) = false.
Proof.
  intros [Hne Hds]. unfold completeMatch.
  rewrite strip_prefix_tasks, span_digits_all by done.
  by rewrite eqb_nonempty.
Qed.

Lemma completeMatch_complete (ds : string) :
  id_digits ds → completeMatch ("/tasks/" +:+ ds +:+ "/complete") = true.
Proof.
  intros [Hne Hds]. unfold completeMatch.
  rewrite strip_prefix_tasks, span_digits_slash by done.
  by rewrite eqb_nonempty.
Qed.

Lemma is_digit_not_slash (c : ascii) : is_digit c = true → Ascii.eqb c "/" = false.
Proof.
  unfold is_digit. intros [H1%Nat.leb_le H2]%andb_true_iff.
  apply Ascii.eqb_neq. intros ->. vm_compute in H1. lia.
Qed.

Lemma String_split_digits (ds rest : string) :
  all_digits ds = true →
  String_split "/" (ds +:+ String "/" rest) = ds :: String_split "/" rest.
Proof.
  induction ds as [|c ds IH]; [done|]. rewrite append_cons.
  cbn [all_digits String_split].
  intros [Hc%is_digit_not_slash Hds]%andb_true_iff.
  by rewrite Hc, (IH Hds).
Qed.

Lemma String_split_tasks (rest : string) :
  String_split "/" ("/tasks/" +:+ rest) = "" :: "tasks" :: String_split "/" rest.
Proof. reflexivity. Qed.

Lemma String_split_complete (ds : string) :
  all_digits ds = true →
  String_split "/" ("/tasks/" +:+ ds +:+ "/complete") !! 2%nat = Some ds.
Proof.
  intros Hds. rewrite String_split_tasks.
  change (ds +:+ "/complete") with (ds +:+ String "/" "complete").
  by rewrite String_split_digits.
Qed.

Lemma tasks_id_ne (ds rest : string) (p : string) :
  p ∈ ["/tasks"; "/tasks/export"; "/"; "/index.html"; "/app.js"] →
  id_digits ds → String.eqb ("/tasks/" +:+ ds +:+ rest) p = false.
Proof.
  intros Hp [Hne Hds]. apply String.eqb_neq. intros Heq.
  destruct ds as [|c ds]; [done|]. cbn [all_digits] in Hds.
  apply andb_true_iff in Hds as [Hc _].
  rewrite !elem_of_cons, elem_of_nil in Hp.
  destruct Hp as [-> | [-> | [-> | [-> | [-> | []]]]]];
    try discriminate Heq.
  injection Heq as -> _. done.
Qed.

(** Comparisons of two string literals are computed. *)
Ltac literal_eqb :=
  repeat match goal with
  | |- context [String.eqb (String ?a ?x) (String ?b ?y)] =>
      let v := eval vm_compute in (String.eqb (String a x) (String b y)) in
      change (String.eqb (String a x) (String b y)) with v
  end.

Lemma eqb_not_elem_of (m : string) (ms : list string) :
  m ∉ ms → Forall (λ m', String.eqb m m' = false) ms.
Proof.
  intros Hm. apply Forall_forall. intros m' Hm'. apply String.eqb_neq.
  by intros ->.
Qed.

Section handler_properties.
Context `{!Engine} (parseInt : string → number) (fe : frontend).

(** X16. The paths with an id reach the routes of the process with the
    id that [parseInt] reads from the digits: [PUT /tasks/<digits>] is the
    update, [DELETE /tasks/<digits>] the deletion and
    [POST /tasks/<digits>/complete] the completion of that id. *)
Theorem serve_id_routes (ds : string) (query : obj) (body : option obj)
    (s : system) :
  id_digits ds →
  answer (serve parseInt fe (req.make "PUT" ("/tasks/" +:+ ds) query body) s) =
    handle (PUT_tasks_id (parseInt ds) body) s ∧
  answer (serve parseInt fe (req.make "DELETE" ("/tasks/" +:+ ds) query body) s) =
    handle (DELETE_tasks_id (parseInt ds)) s ∧
  answer (serve parseInt fe
            (req.make "POST" ("/tasks/" +:+ ds +:+ "/complete") query body) s) =
    handle (POST_tasks_id_complete (parseInt ds)) s.
Proof.
  intros Hds. unfold serve, answer, with_repo. cbn [req.method req.pathname req.body handle].
  assert (String.eqb ("/tasks/" +:+ ds) "/tasks" = false) as H1.
  { rewrite <- (append_nil_r ds). apply tasks_id_ne; [repeat constructor|done]. }
  assert (String.eqb ("/tasks/" +:+ ds +:+ "/complete") "/tasks" = false) as H2.
  { apply tasks_id_ne; [repeat constructor|done]. }
  rewrite !H1, H2, !(idMatch_id ds), (completeMatch_complete ds) by done.
  rewrite String_split_complete by apply Hds.
  literal_eqb.
  cbn [andb orb from_option]. rewrite !bool_decide_eq_true_2 by done.
  cbv iota.
  split; [by destruct (server.put_tasks_id _ _ _)|].
  split; [by destruct (server.delete_tasks_id _ _)|].
  by destruct (server.post_tasks_id_complete _ _).
Qed.

(** X17. The pattern of the id routes lets [/complete] follow the id, so
    [PUT] and [DELETE] on [/tasks/<digits>/complete] do what they do on
    [/tasks/<digits>]; and [POST /tasks/<digits>] without [/complete] is no
    route: the answer is 404 and nothing changes. *)
Theorem serve_complete_suffix (m ds : string) (query : obj)
    (body : option obj) (s : system) :
  id_digits ds → m ∈ ["PUT"; "DELETE"] →
  serve parseInt fe
      (req.make m ("/tasks/" +:+ ds +:+ "/complete") query body) s =
    serve parseInt fe (req.make m ("/tasks/" +:+ ds) query body) s ∧
  serve parseInt fe (req.make "POST" ("/tasks/" +:+ ds) query body) s =
    (respond 404 (Message "Not found"), s).
Proof.
  intros Hds Hm. unfold serve.
  cbn [req.method req.pathname req.body].
  assert (String.eqb ("/tasks/" +:+ ds) "/tasks" = false) as H1.
  { rewrite <- (append_nil_r ds). apply tasks_id_ne; [repeat constructor|done]. }
  assert (String.eqb ("/tasks/" +:+ ds +:+ "/complete") "/tasks" = false) as H2.
  { apply tasks_id_ne; [repeat constructor|done]. }
  rewrite !H1, !H2, !(idMatch_complete ds), !(idMatch_id ds),
    (completeMatch_id ds) by done.
  split.
  - rewrite !elem_of_cons, elem_of_nil in Hm.
    destruct Hm as [-> | [-> | []]]; literal_eqb; cbn [andb orb]; done.
  - literal_eqb. cbn [andb orb]. done.
Qed.

(** X18. What the handler leaves alone: no request writes [tasks.json],
    which is written on exit only; a request whose method is not POST, PUT
    or DELETE leaves the repository as it is; and a request whose method is
    none of OPTIONS, GET, POST, PUT and DELETE gets 404 and changes
    nothing. *)
Theorem serve_effects (q : req.t) (s : system) :
  tasks_json (files (serve parseInt fe q s).2) = tasks_json (files s) ∧
  (req.method q ∉ ["POST"; "PUT"; "DELETE"] →
   repo (serve parseInt fe q s).2 = repo s) ∧
  (req.method q ∉ ["OPTIONS"; "GET"; "POST"; "PUT"; "DELETE"] →
   serve parseInt fe q s = (respond 404 (Message "Not found"), s)).
Proof.
  split; [|split].
  - unfold serve, with_repo, server.get_tasks_export.
    repeat case_match; done.
  - intros Hm%eqb_not_elem_of.
    apply Forall_cons in Hm as [Hpost Hm].
    apply Forall_cons in Hm as [Hput Hm].
    apply Forall_cons in Hm as [Hdelete _].
    unfold serve, with_repo, server.get_tasks_export.
    rewrite Hpost, Hput, Hdelete. cbn [andb].
    repeat case_match; done.
  - intros Hm%eqb_not_elem_of.
    apply Forall_cons in Hm as [Hoptions Hm].
    apply Forall_cons in Hm as [Hget Hm].
    apply Forall_cons in Hm as [Hpost Hm].
    apply Forall_cons in Hm as [Hput Hm].
    apply Forall_cons in Hm as [Hdelete _].
    unfold serve. by rewrite Hoptions, Hget, Hpost, Hput, Hdelete.
Qed.

End handler_properties.

(** * The properties on the example data *)

(** The scenario of the specification: a creation, its completion, and the
    list of the completed tasks. *)
Lemma buy_milk_scenario :
  (@run reference_engine
     [POST_tasks (Some (<["priority" := Str "High"]> {["title" := Str "Buy milk"]}));
      POST_tasks_id_complete (Int 1);
      GET_tasks {["filter" := Str "completed"]}]
     (@start reference_engine empty_disk)).1 =
  [Some (respond 201 (Object (Task.toJSON buy_milk)));
   Some (respond 200 (Object (Task.toJSON
           (overlay {["status" := Str "Completed"]} buy_milk))));
   Some (respond 200 (Objects [Task.toJSON
           (overlay {["status" := Str "Completed"]} buy_milk)]))].
Proof. by vm_compute. Qed.

(** C1 as the specification states it, for every run: the ids a run
    assigns increase strictly. Here the id of the deleted task is assigned
    again after the restart. *)
Lemma restart_reuses_deleted_id :
  @assigned reference_engine delete_restart_create
    (@start reference_engine empty_disk) =
    [Some (Num (Int 1)); Some (Num (Int 2)); Some (Num (Int 2))] ∧
  ¬ StronglySorted id_lt
      (@assigned reference_engine delete_restart_create
         (@start reference_engine empty_disk)).
Proof.
  assert (@assigned reference_engine delete_restart_create
            (@start reference_engine empty_disk) =
          [Some (Num (Int 1)); Some (Num (Int 2)); Some (Num (Int 2))]) as ->
    by (vm_compute; reflexivity).
  split; [done|].
  intros Hsorted. apply StronglySorted_inv in Hsorted as [Hsorted _].
  apply StronglySorted_inv in Hsorted as [_ Hlt].
  apply Forall_cons in Hlt as [(x & y & Hx & Hy & Hxy) _]. simplify_eq. lia.
Qed.

Lemma ids_increase_until_restart_witness :
  Forall (λ q, is_restart q = false) [POST_tasks (titled "d"); POST_tasks (titled "e")] ∧
  StronglySorted id_lt
    (@assigned reference_engine [POST_tasks (titled "d"); POST_tasks (titled "e")]
       (@run reference_engine delete_restart_create
          (@start reference_engine empty_disk)).2).
Proof.
  assert (Forall (λ q, is_restart q = false)
            [POST_tasks (titled "d"); POST_tasks (titled "e")]) as Hqs
    by (repeat constructor).
  split; [exact Hqs|].
  exact (proj1 (@ids_increase_until_restart reference_engine
                  delete_restart_create _ Hqs)).
Defined.

Lemma createTask_priority_normalized_witness :
  truthy (urgent_milk !! "title") = true ∧
  ∃ k r',
    TaskController.createTask urgent_milk three_tasks =
      (respond 201 (Object (Task.toJSON k)), r') ∧
    Task.priority k = Str "Low".
Proof.
  assert (truthy (urgent_milk !! "title") = true) as Htitle
    by (vm_compute; reflexivity).
  assert (urgent_milk !! "priority" ∉
            [Some (Str "High"); Some (Str "Medium"); Some (Str "Low")]) as Hno
    by (apply (bool_decide_unpack _); vm_compute; exact I).
  split; [exact Htitle|].
  destruct (createTask_priority_normalized urgent_milk three_tasks Htitle)
    as (k & r' & Hres & _ & _ & _ & _ & _ & _ & Hlow).
  exists k, r'. split; [exact Hres|exact (Hlow Hno)].
Defined.

Lemma createTask_title_required_witness :
  ((∅ : obj) !! "title" = None ∨ (∅ : obj) !! "title" = Some (Str "")) ∧
  TaskController.createTask ∅ three_tasks =
    (respond 400 (Message "Title is required"), three_tasks).
Proof.
  assert ((∅ : obj) !! "title" = None ∨ (∅ : obj) !! "title" = Some (Str ""))
    as Hno by (left; reflexivity).
  split; [exact Hno|].
  exact (proj1 (createTask_title_required ∅ three_tasks Hno)).
Defined.

Lemma createTask_status_ToDo_witness :
  truthy (done_milk !! "title") = true ∧
  ∃ k r',
    TaskController.createTask done_milk three_tasks =
      (respond 201 (Object (Task.toJSON k)), r') ∧
    Task.status k = Str "ToDo".
Proof.
  assert (truthy (done_milk !! "title") = true) as Htitle
    by (vm_compute; reflexivity).
  split; [exact Htitle|].
  destruct (createTask_status_ToDo done_milk three_tasks Htitle)
    as [(k & r' & Hres & _ & Hst & _) _].
  exists k, r'. split; [exact Hres|exact Hst].
Defined.

Lemma has_task_2_three_tasks : has_task 2 three_tasks.
Proof. apply Exists_cons_tl, Exists_cons_hd. reflexivity. Defined.

Lemma updateTask_overlays_present_fields_witness :
  has_task 2 three_tasks ∧
  ∃ i existing updated r',
    TaskRepository.tasks three_tasks !! i = Some existing ∧
    TaskController.updateTask (Int 2) rent_edit three_tasks =
      (respond 200 (Object (Task.toJSON updated)), r') ∧
    Task.deadline updated = Task.deadline existing ∧
    Task.priority updated = Task.priority existing ∧
    Task.status updated = Task.status existing.
Proof.
  split; [exact has_task_2_three_tasks|].
  destruct (updateTask_overlays_present_fields 2 rent_edit three_tasks
              has_task_2_three_tasks)
    as (i & existing & updated & Hex & _ & Hres & _ & _ & _ & _ & _ & _ & Hsame).
  exists i, existing, updated. eexists. split; [exact Hex|].
  split; [exact Hres|]. apply Hsame; vm_compute; reflexivity.
Defined.

Lemma unknown_id_7_three_tasks : unknown_id (Int 7) three_tasks.
Proof. repeat (constructor; [discriminate|]). constructor. Defined.

Lemma unknown_id_not_found_witness :
  unknown_id (Int 7) three_tasks ∧
  TaskController.updateTask (Int 7) {["title" := Str "x"]} three_tasks =
    (respond 404 (Message "Task not found"), three_tasks) ∧
  TaskController.deleteTask (Int 7) three_tasks =
    (respond 404 (Message "Task not found"), three_tasks) ∧
  TaskController.markCompleted (Int 7) three_tasks =
    (respond 404 (Message "Task not found"), three_tasks).
Proof.
  split; [exact unknown_id_7_three_tasks|].
  destruct (unknown_id_not_found (Int 7) {["title" := Str "x"]} ∅ three_tasks
              unknown_id_7_three_tasks) as (_ & _ & _ & Hup & Hdel & Hdone).
  split; [exact Hup|]. split; [exact Hdel|exact Hdone].
Defined.


Lemma three_tasks_deadlines_valid :
  Forall (@deadline_valid reference_engine) (TaskRepository.tasks three_tasks).
Proof.
  repeat (constructor; [intros _; eexists; vm_compute; reflexivity|]).
  constructor.
Defined.








Lemma mutations_keep_positions_witness :
  has_task 2 three_tasks ∧
  ∃ i existing r',
    TaskRepository.tasks three_tasks !! i = Some existing ∧
    TaskRepository.deleteTask (Some (Num (Int 2))) three_tasks = (true, r') ∧
    TaskRepository.tasks r' =
      take i (TaskRepository.tasks three_tasks) ++
      drop (S i) (TaskRepository.tasks three_tasks).
Proof.
  split; [exact has_task_2_three_tasks|].
  destruct (proj2 (mutations_keep_positions 2 ∅ ∅ three_tasks)
              has_task_2_three_tasks)
    as (_ & (i & existing & r' & Hex & _ & Hdel & Htasks)).
  exists i, existing, r'. split; [exact Hex|]. split; [exact Hdel|exact Htasks].
Defined.

(** * The further properties on the example data *)

Lemma getTasks_unknown_options_witness :
  Some (Str "urgent") ≠ Some (Str "completed") ∧
  @TaskRepository.getTasks reference_engine (Some (Str "title"))
    (Some (Str "urgent")) three_tasks = TaskRepository.tasks three_tasks.
Proof.
  split; [discriminate|].
  apply (@getTasks_unknown_options reference_engine); discriminate.
Defined.

Lemma urgent_milk_title : truthy (urgent_milk !! "title") = true.
Proof. vm_compute. reflexivity. Defined.





Lemma three_tasks_ids_NoDup :
  NoDup (Task.id <$> TaskRepository.tasks three_tasks).
Proof. apply (bool_decide_unpack _). vm_compute. exact I. Defined.

Lemma deleteTask_removes_witness :
  NoDup (Task.id <$> TaskRepository.tasks three_tasks) ∧
  has_task 2 three_tasks ∧
  ∃ r',
    TaskRepository.deleteTask (Some (Num (Int 2))) three_tasks = (true, r') ∧
    unknown_id (Int 2) r'.
Proof.
  split; [exact three_tasks_ids_NoDup|]. split; [exact has_task_2_three_tasks|].
  destruct (@deleteTask_removes reference_engine 2 three_tasks
              three_tasks_ids_NoDup has_task_2_three_tasks)
    as (r' & Hdel & Hgone & _).
  exists r'. split; [exact Hdel|exact Hgone].
Defined.

Lemma stored_file_ids :
  (λ o : obj, o !! "id") <$> stored_file =
    (λ z, Some (Num (Int z))) <$> [2; 1].
Proof. vm_compute. reflexivity. Defined.

Lemma stored_file_ids_safe : Forall safe_integer [2; 1].
Proof. repeat constructor. Defined.

Lemma load_then_create_is_fresh_witness :
  (λ o : obj, o !! "id") <$> stored_file =
    (λ z, Some (Num (Int z))) <$> [2; 1] ∧
  Forall safe_integer [2; 1] ∧
  truthy (urgent_milk !! "title") = true ∧
  ∃ n, @TaskRepository.nextId
         (@TaskRepository.new reference_engine (Json stored_file)) = Int n ∧
       Forall (λ z, z < n) [2; 1].
Proof.
  split; [exact stored_file_ids|]. split; [exact stored_file_ids_safe|].
  split; [exact urgent_milk_title|].
  destruct (@load_then_create_is_fresh reference_engine stored_file [2; 1]
              urgent_milk stored_file_ids stored_file_ids_safe
              urgent_milk_title)
    as (n & k & r' & Hn & Hlt & _).
  exists n. split; [exact Hn|exact Hlt].
Defined.

Lemma file_without_id_element :
  ∃ o : obj, o ∈ file_without_id ∧ o !! "id" = None.
Proof.
  exists {["title" := Str "No id"]}. split; [|vm_compute; reflexivity].
  repeat constructor.
Defined.

Lemma load_without_id_spoils_counter_witness :
  (∃ o : obj, o ∈ file_without_id ∧ o !! "id" = None) ∧
  truthy (urgent_milk !! "title") = true ∧
  TaskRepository.nextId
    (@TaskRepository.new reference_engine (Json file_without_id)) = NaN.
Proof.
  split; [exact file_without_id_element|]. split; [exact urgent_milk_title|].
  exact (proj1 (@load_without_id_spoils_counter reference_engine
                  file_without_id urgent_milk file_without_id_element
                  urgent_milk_title)).
Defined.

Lemma titled_json_request (title : string) : json_request (POST_tasks (titled title)).
Proof.
  intros k. unfold json_value. destruct (decide (k = "title")) as [->|Hne].
  - rewrite lookup_singleton. split; discriminate.
  - rewrite lookup_singleton_ne by done. split; discriminate.
Defined.

Lemma delete_restart_create_json : Forall json_request delete_restart_create.
Proof.
  repeat (constructor; [first [apply titled_json_request | exact I]|]).
  constructor.
Defined.

Lemma restart_keeps_lists_witness :
  Forall json_request delete_restart_create ∧
  (@handle reference_engine (GET_tasks ∅)
     (@handle reference_engine Restart
        (@run reference_engine delete_restart_create
           (@start reference_engine empty_disk)).2).2).1 =
  (@handle reference_engine (GET_tasks ∅)
     (@run reference_engine delete_restart_create
        (@start reference_engine empty_disk)).2).1.
Proof.
  split; [exact delete_restart_create_json|].
  exact (@restart_keeps_lists reference_engine delete_restart_create ∅
           delete_restart_create_json).
Defined.

Lemma three_tasks_priorities_valid :
  Forall priority_valid (TaskRepository.tasks three_tasks).
Proof.
  repeat (constructor;
    [apply (bool_decide_unpack _); vm_compute; exact I|]).
  constructor.
Defined.

Lemma getTasks_sorted_by_priority_witness :
  Forall priority_valid (TaskRepository.tasks three_tasks) ∧
  StronglySorted priority_le
    (@TaskRepository.getTasks reference_engine (Some (Str "priority")) None
       three_tasks).
Proof.
  split; [exact three_tasks_priorities_valid|].
  exact (proj1 (proj2 (@getTasks_sorted_by_priority reference_engine None
                         three_tasks three_tasks_priorities_valid))).
Defined.

Lemma getTasks_deadline_sort_stable_witness :
  Forall (@deadline_valid reference_engine) (TaskRepository.tasks three_tasks) ∧
  List.filter no_deadline
      (@TaskRepository.getTasks reference_engine (Some (Str "deadline")) None
         three_tasks) =
    List.filter no_deadline
      (@TaskRepository.getTasks reference_engine None None three_tasks).
Proof.
  split; [exact three_tasks_deadlines_valid|].
  exact (proj1 (@getTasks_deadline_sort_stable reference_engine None
                  three_tasks three_tasks_deadlines_valid)).
Defined.

Lemma id_digits_2 : id_digits "2".
Proof. split; [discriminate|reflexivity]. Defined.

Lemma serve_id_routes_witness :
  id_digits "2" ∧
  answer (@serve reference_engine parseInt_decimal no_frontend
            (req.make "DELETE" ("/tasks/" +:+ "2") ∅ None) three_tasks_system) =
    @handle reference_engine (DELETE_tasks_id (parseInt_decimal "2"))
      three_tasks_system.
Proof.
  split; [exact id_digits_2|].
  exact (proj1 (proj2 (@serve_id_routes reference_engine parseInt_decimal
                         no_frontend "2" ∅ None three_tasks_system id_digits_2))).
Defined.

Lemma PUT_is_an_id_method : "PUT" ∈ ["PUT"; "DELETE"].
Proof. repeat constructor. Defined.

Lemma serve_complete_suffix_witness :
  id_digits "2" ∧ "PUT" ∈ ["PUT"; "DELETE"] ∧
  @serve reference_engine parseInt_decimal no_frontend
      (req.make "PUT" ("/tasks/" +:+ "2" +:+ "/complete") ∅ (Some rent_edit))
      three_tasks_system =
    @serve reference_engine parseInt_decimal no_frontend
      (req.make "PUT" ("/tasks/" +:+ "2") ∅ (Some rent_edit)) three_tasks_system.
Proof.
  split; [exact id_digits_2|]. split; [exact PUT_is_an_id_method|].
  exact (proj1 (@serve_complete_suffix reference_engine parseInt_decimal
                  no_frontend "PUT" "2" ∅ (Some rent_edit) three_tasks_system
                  id_digits_2 PUT_is_an_id_method)).
Defined.

Lemma HEAD_is_safe : "HEAD" ∉ ["POST"; "PUT"; "DELETE"].
Proof. apply (bool_decide_unpack _). vm_compute. exact I. Defined.

Lemma serve_effects_witness :
  ("HEAD" ∉ ["POST"; "PUT"; "DELETE"]) ∧
  repo (@serve reference_engine parseInt_decimal no_frontend
          (req.make "HEAD" "/tasks" ∅ None) three_tasks_system).2 =
    repo three_tasks_system.
Proof.
  split; [exact HEAD_is_safe|].
  exact (proj1 (proj2 (@serve_effects reference_engine parseInt_decimal
                         no_frontend (req.make "HEAD" "/tasks" ∅ None)
                         three_tasks_system)) HEAD_is_safe).
Defined.
